(** * Lab2: image metadata and compression-ratio extraction

    A shallow embedding of [Lab2/Lab2.py]: the [ImageInfoExtractor] class,
    [scan_folder], the record-building loop of [scan_and_process_folder],
    the scan button of [main] and the table of [display_results],
    together with the small part of the Python runtime they rest on
    (exceptions, [str]/[format], binary64 floats and [os.path]).

    Pillow and the operating system are collaborators of the program: they
    enter as the fields of a [World] record, so that every statement below
    holds for whatever they answer. *)

From Stdlib Require Import ZArith String Ascii List Bool Lia SpecFloat DecimalString.
From Stdlib Require Import Reals Lra.
From stdpp Require Import gmap strings.

Set Warnings "-register-all".

Open Scope string_scope.
Open Scope Z_scope.

(** ** Python runtime: exceptions and values *)

Module Py.

(** A computation either returns or raises; [msg] is [str(e)] of the
    exception, the only thing the program ever reads from it. *)
Inductive result (A : Type) : Type :=
| Ok (a : A)
| Raise (msg : string).
Arguments Ok {A} a.
Arguments Raise {A} msg.

Definition bind {A B : Type} (c : result A) (k : A -> result B) : result B :=
  match c with
  | Ok a => k a
  | Raise msg => Raise msg
  end.

(** The objects the program meets in image metadata and puts in its
    records.  [VObj] stands for an object of any other type (a float, a
    rational, a list, ...), given by the texts [str] and [repr] return
    for it. *)
Inductive value : Type :=
| VNone
| VInt (z : Z)
| VStr (s : string)
| VTuple (items : list value)
| VObj (text repr_text : string).

Definition str_of_int (z : Z) : string := NilZero.string_of_int (Z.to_int z).

Definition hex_digit (n : nat) : ascii :=
  if (n <? 10)%nat then ascii_of_nat (48 + n) else ascii_of_nat (87 + n).

(** [repr] of a [str]: quotes, backslash escapes, [\xNN] for control
    characters.  Bytes of non-ASCII characters are kept as they are. *)
Fixpoint contains_char (c : ascii) (s : string) : bool :=
  match s with
  | EmptyString => false
  | String a s' => if Ascii.eqb a c then true else contains_char c s'
  end.

Fixpoint escape (quote : ascii) (s : string) : string :=
  match s with
  | EmptyString => EmptyString
  | String a s' =>
      let n := nat_of_ascii a in
      (if Ascii.eqb a "\" then "\\"
       else if Ascii.eqb a quote then String "\" (String quote EmptyString)
       else if (n =? 10)%nat then "\n"
       else if (n =? 13)%nat then "\r"
       else if (n =? 9)%nat then "\t"
       else if ((n <? 32) || (n =? 127))%nat
            then String "\" (String "x" (String (hex_digit (n / 16))
                   (String (hex_digit (n mod 16)) EmptyString)))
       else String a EmptyString) ++ escape quote s'
  end.

Definition repr_str (s : string) : string :=
  let quote : ascii :=
    if contains_char "'" s && negb (contains_char "034" s) then "034"%char else "'"%char in
  String quote (escape quote s ++ String quote EmptyString).

Fixpoint join (sep : string) (l : list string) : string :=
  match l with
  | [] => EmptyString
  | [x] => x
  | x :: l' => x ++ sep ++ join sep l'
  end.

Definition tuple_text (items : list string) : string :=
  match items with
  | [x] => "(" ++ x ++ ",)"
  | _ => "(" ++ join ", " items ++ ")"
  end.

Fixpoint repr (v : value) : string :=
  match v with
  | VNone => "None"
  | VInt z => str_of_int z
  | VStr s => repr_str s
  | VTuple items => tuple_text (List.map repr items)
  | VObj _ r => r
  end.

(** [str(v)]; [format(v, '')], which an f-string field [{v}] calls, is
    the same text for every one of these types. *)
Definition str (v : value) : string :=
  match v with
  | VStr s => s
  | VObj t _ => t
  | _ => repr v
  end.

(** [v == s] for a [str] [s]. *)
Definition eq_str (v : value) (s : string) : bool :=
  match v with
  | VStr s' => String.eqb s' s
  | _ => false
  end.

(** [str.lower] and [str.capitalize] on ASCII text: the letters A-Z and
    a-z change case, every other byte is left alone.  (Of the non-ASCII
    characters, Unicode lower-casing sends only the Kelvin sign to a
    plain ASCII string, the letter k.) *)
Definition lower_char (a : ascii) : ascii :=
  let n := nat_of_ascii a in
  if ((65 <=? n) && (n <=? 90))%nat then ascii_of_nat (n + 32) else a.

Definition upper_char (a : ascii) : ascii :=
  let n := nat_of_ascii a in
  if ((97 <=? n) && (n <=? 122))%nat then ascii_of_nat (n - 32) else a.

Fixpoint lower (s : string) : string :=
  match s with
  | EmptyString => EmptyString
  | String a s' => String (lower_char a) (lower s')
  end.

Definition capitalize (s : string) : string :=
  match s with
  | EmptyString => EmptyString
  | String a s' => String (upper_char a) (lower s')
  end.

End Py.

Import Py.

#[global] Instance result_bind : MBind Py.result :=
  fun A B k c => Py.bind c k.

(** ** Python floats

    A Python [float] is an IEEE 754 binary64 number; the operations are
    those of the Standard Library's executable specification of binary
    floating point at precision 53. *)

Module PyFloat.

Definition prec : Z := 53.
Definition emax : Z := 1024.

(** The exact value of an [int], as a float with an unrounded mantissa. *)
Definition exact (z : Z) : spec_float :=
  match z with
  | Z0 => S754_zero false
  | Zpos p => S754_finite false p 0
  | Zneg p => S754_finite true p 0
  end.

(** [float(n)] for an [int] operand of a float operation: the nearest
    float, [OverflowError] beyond the range. *)
Definition of_int (z : Z) : result spec_float :=
  match binary_normalize prec emax z 0 false with
  | S754_infinity _ => Raise "int too large to convert to float"
  | f => Ok f
  end.

(** [a / b] on two [int]s: the correctly rounded quotient. *)
Definition int_truediv (a b : Z) : result spec_float :=
  if b =? 0 then Raise "division by zero"
  else match SFdiv prec emax (exact a) (exact b) with
       | S754_infinity _ => Raise "integer division result too large for a float"
       | q => Ok q
       end.

(** [x * n] and [x / n] for a float [x] and an [int] [n]. *)
Definition mul_int (x : spec_float) (n : Z) : result spec_float :=
  y ← of_int n; Ok (SFmul prec emax x y).

Definition truediv_int (x : spec_float) (n : Z) : result spec_float :=
  y ← of_int n;
  match y with
  | S754_zero _ => Raise "float division by zero"
  | _ => Ok (SFdiv prec emax x y)
  end.

(** *** Fixed-point formatting, [format(x, '.kf')] *)

(** [num / den] rounded to the nearest integer, ties to even. *)
Definition round_half_even (num den : Z) : Z :=
  let q := num / den in
  let r := num mod den in
  match 2 * r ?= den with
  | Lt => q
  | Gt => q + 1
  | Eq => if Z.even q then q else q + 1
  end.

(** [m * 2^e * 10^k] rounded to the nearest integer. *)
Definition scaled (k : nat) (m : positive) (e : Z) : Z :=
  match e with
  | Zneg p => round_half_even (Zpos m * 10 ^ Z.of_nat k) (2 ^ Zpos p)
  | _ => Zpos m * 2 ^ e * 10 ^ Z.of_nat k
  end.

Definition digit_char (d : Z) : ascii := ascii_of_nat (48 + Z.to_nat d).

(** The last [k] decimal digits of [n], zero padded. *)
Fixpoint fixed_digits (k : nat) (n : Z) : string :=
  match k with
  | O => EmptyString
  | S k' => fixed_digits k' (n / 10) ++ String (digit_char (n mod 10)) EmptyString
  end.

Definition decimal_text (k : nat) (n : Z) : string :=
  str_of_int (n / 10 ^ Z.of_nat k)
  ++ match k with
     | O => EmptyString
     | _ => "." ++ fixed_digits k (n mod 10 ^ Z.of_nat k)
     end.

Definition sign_text (s : bool) : string := if s then "-" else EmptyString.

Definition format_f (k : nat) (x : spec_float) : string :=
  match x with
  | S754_zero s => sign_text s ++ decimal_text k 0
  | S754_finite s m e => sign_text s ++ decimal_text k (scaled k m e)
  | S754_infinity s => sign_text s ++ "inf"
  | S754_nan => "nan"
  end.

End PyFloat.

(** ** [os.path] (POSIX flavour) *)

Module posixpath.

(** [s.rfind(c)]: the highest index of [c] in [s], [-1] when absent. *)
Fixpoint rfind (c : ascii) (s : string) : Z :=
  match s with
  | EmptyString => -1
  | String a s' =>
      let r := rfind c s' in
      if 0 <=? r then r + 1 else if Ascii.eqb a c then 0 else -1
  end.

(** The slices [s[n:]] and [s[:n]]. *)
Fixpoint drop (n : nat) (s : string) : string :=
  match n, s with
  | S n', String _ s' => drop n' s'
  | _, _ => s
  end.

Fixpoint take (n : nat) (s : string) : string :=
  match n, s with
  | S n', String a s' => String a (take n' s')
  | _, _ => EmptyString
  end.

Definition startswith (c : ascii) (s : string) : bool :=
  match s with
  | String a _ => Ascii.eqb a c
  | EmptyString => false
  end.

Fixpoint endswith (c : ascii) (s : string) : bool :=
  match s with
  | EmptyString => false
  | String a EmptyString => Ascii.eqb a c
  | String _ s' => endswith c s'
  end.

(** The scan of [splitext] over the characters between the last
    separator and the last dot: is one of the first [n] characters of
    [s] something else than a dot? *)
Fixpoint has_non_dot (n : nat) (s : string) : bool :=
  match n, s with
  | S n', String a s' => if Ascii.eqb a "." then has_non_dot n' s' else true
  | _, _ => false
  end.

Definition splitext (p : string) : string * string :=
  let sepIndex := rfind "/" p in
  let dotIndex := rfind "." p in
  if sepIndex <? dotIndex then
    let filenameIndex := sepIndex + 1 in
    if has_non_dot (Z.to_nat (dotIndex - filenameIndex)) (drop (Z.to_nat filenameIndex) p)
    then (take (Z.to_nat dotIndex) p, drop (Z.to_nat dotIndex) p)
    else (p, EmptyString)
  else (p, EmptyString).

Definition join (a b : string) : string :=
  if startswith "/" b then b
  else if String.eqb a EmptyString || endswith "/" a then a ++ b
  else a ++ "/" ++ b.

Definition basename (p : string) : string :=
  drop (Z.to_nat (rfind "/" p + 1)) p.

End posixpath.

(** ** Collaborators: Pillow and the operating system *)

(** What the program reads of a decoded image. *)
Record PILImage : Type := {
  img_format : option string;      (* [img.format]; [None] when the decoder reports none *)
  img_size : Z * Z;                (* [img.size] *)
  img_mode : string;               (* [img.mode] *)
  img_info : gmap string value     (* [img.info] *)
}.

Record World : Type := {
  (** [Image.open(path)] *)
  Image_open : string -> result PILImage;
  (** [os.stat(path).st_size] *)
  os_stat_st_size : string -> result Z;
  (** [img.convert(mode)] *)
  Image_convert : PILImage -> string -> result PILImage;
  (** [img.save(buffer, format=fmt)] on a fresh [io.BytesIO], followed by
      [buffer.tell()]: the position of the buffer after the write. *)
  Image_save_tell : PILImage -> string -> result N;
  (** [os.walk(folder)]: the [(root, dirs, files)] triples in the order
      the traversal yields them. *)
  os_walk : string -> list (string * list string * list string)
}.

(** ** [class ImageInfoExtractor] *)

Import PyFloat.

Definition supported_formats : gset string :=
  {[ ".jpg"; ".jpeg"; ".gif"; ".tif"; ".tiff"; ".bmp"; ".png"; ".pcx" ]}.

Definition mode_bits : gmap string Z :=
  list_to_map
    [ ("1", 1); ("L", 8); ("P", 8); ("RGB", 24); ("RGBA", 32);
      ("CMYK", 32); ("YCbCr", 24); ("LAB", 24); ("HSV", 24); ("I", 32); ("F", 32) ].

Definition get_color_depth (img : PILImage) : value :=
  match mode_bits !! img_mode img with
  | Some bits => VInt bits
  | None => VStr ("Unknown (" ++ img_mode img ++ ")")
  end.

Definition get_dpi (img : PILImage) : string :=
  let dpi := default (VTuple [VInt 72; VInt 72]) (img_info img !! "dpi") in
  match dpi with
  | VTuple [x; y] => Py.str x ++ " × " ++ Py.str y
  | _ => "72 × 72"
  end.

(** The image handed to the BMP writer: [rgb_img]. *)
Definition rgb_img (w : World) (img : PILImage) : result PILImage :=
  if bool_decide (img_mode img ∈ ["RGBA"; "LA"; "P"])
  then Image_convert w img "RGB"
  else Ok img.

(** The rest of the [try] block, from [rgb_img.save] on. *)
Definition reencode_and_compare (w : World) (rgb : PILImage) (actual_file_size : Z)
  : result string :=
  pos ← Image_save_tell w rgb "BMP";
  let uncompressed_size := Z.of_N pos in
  if 0 <? uncompressed_size then
    q ← int_truediv (uncompressed_size - actual_file_size) uncompressed_size;
    compression_percentage ← mul_int q 100;
    Ok (format_f 1 compression_percentage ++ "%")
  else Ok "N/A".

Definition calculate_jpeg_compression_ratio
    (w : World) (img : PILImage) (actual_file_size : Z) : string :=
  match (rgb ← rgb_img w img; reencode_and_compare w rgb actual_file_size) with
  | Ok s => s
  | Raise e => "Error: " ++ e
  end.

Definition compression_map : gmap string string :=
  list_to_map
    [ ("jpeg", "JPEG"); ("deflate", "DEFLATE"); ("packbits", "PackBits");
      ("lzw", "LZW"); ("none", "None"); ("raw", "RAW"); ("tiff_lzw", "TIFF LZW") ].

Definition get_compression
    (w : World) (img : PILImage) (file_path : string) (actual_file_size : Z) : string :=
  let format_is s := bool_decide (img_format img = Some s) in
  if format_is "JPEG" then calculate_jpeg_compression_ratio w img actual_file_size
  else if format_is "PNG" then "0%"
  else if format_is "BMP" then "0%"
  else if format_is "TIFF" then
    let compression := default (VStr "None") (img_info img !! "compression") in
    default (Py.capitalize (Py.str compression))
            (compression_map !! Py.lower (Py.str compression))
  else if format_is "GIF" then "LZW"
  else
    let compression := default (VStr "None") (img_info img !! "compression") in
    if negb (Py.eq_str compression "None") then Py.capitalize (Py.str compression)
    else "Unknown".

(** [img.format or 'Unknown'] *)
Definition format_or_unknown (img : PILImage) : string :=
  match img_format img with
  | Some (String a s) => String a s
  | _ => "Unknown"
  end.

(** The dictionary built in the [try] block. *)
Definition info_record (w : World) (file_path : string) (img : PILImage)
    (actual_file_size : Z) (mb : spec_float) : gmap string value :=
  list_to_map
    [ ("filename", VStr (posixpath.basename file_path));
      ("filepath", VStr file_path);
      ("format", VStr (format_or_unknown img));
      ("width", VInt (fst (img_size img)));
      ("height", VInt (snd (img_size img)));
      ("size_str", VStr (Py.str_of_int (fst (img_size img)) ++ " × "
                         ++ Py.str_of_int (snd (img_size img))));
      ("mode", VStr (img_mode img));
      ("color_depth", get_color_depth img);
      ("dpi", VStr (get_dpi img));
      ("compression", VStr (get_compression w img file_path actual_file_size));
      ("file_size_mb", VStr (format_f 2 mb));
      ("error", VNone) ].

(** The dictionary built in the [except] block. *)
Definition error_record (file_path : string) (e : string) : gmap string value :=
  list_to_map
    [ ("filename", VStr (posixpath.basename file_path));
      ("filepath", VStr file_path);
      ("error", VStr e);
      ("format", VStr "Error");
      ("size_str", VStr "Error");
      ("dpi", VStr "Error");
      ("color_depth", VStr "Error");
      ("compression", VStr "Error");
      ("file_size_mb", VStr "Error") ].

Definition get_image_info (w : World) (file_path : string) : gmap string value :=
  match (img ← Image_open w file_path;
         actual_file_size ← os_stat_st_size w file_path;
         kb ← int_truediv actual_file_size 1024;
         mb ← truediv_int kb 1024;
         Ok (info_record w file_path img actual_file_size mb))
  with
  | Ok info => info
  | Raise e => error_record file_path e
  end.

(** ** [scan_folder] *)

(** The test of the inner loop on one file name. *)
Definition is_image_file (file : string) : bool :=
  bool_decide (Py.lower (snd (posixpath.splitext file))
               ∈ ({[ ".jpg"; ".jpeg"; ".gif"; ".tif"; ".tiff"; ".bmp"; ".png"; ".pcx" ]}
                  : gset string)).

(** [for file in files: ...], appending to [image_files]. *)
Definition scan_files (root : string) (files : list string) (image_files : list string)
  : list string :=
  fold_left
    (fun acc file =>
       if is_image_file file then (acc ++ [posixpath.join root file])%list else acc)
    files image_files.

(** [for root, dirs, files in os.walk(folder_path): ...], with its [break]. *)
Fixpoint scan_walk (walk : list (string * list string * list string))
    (image_files : list string) : list string :=
  match walk with
  | [] => image_files
  | (root, _, files) :: rest =>
      let image_files := scan_files root files image_files in
      if 100000 <=? Z.of_nat (List.length image_files) then image_files
      else scan_walk rest image_files
  end.

Definition scan_folder (w : World) (folder_path : string) : list string :=
  firstn (Z.to_nat 100000) (scan_walk (os_walk w folder_path) []).

(** ** [scan_and_process_folder] *)

(** What [st.session_state] keeps between runs of the script. *)
Record SessionState : Type := {
  processed_files : list (gmap string value);
  folder_path : string
}.

(** The loop over [image_files] that fills [processed_data]; the progress
    bar and the status text it also updates belong to the user interface. *)
Definition process_files (w : World) (image_files : list string)
  : list (gmap string value) :=
  fold_left
    (fun processed_data file_path => (processed_data ++ [get_image_info w file_path])%list)
    image_files [].

Definition scan_and_process_folder (w : World) (folder : string) (st : SessionState)
  : SessionState :=
  let image_files := scan_folder w folder in
  match image_files with
  | [] => st
  | _ => {| processed_files := process_files w image_files;
            folder_path := folder_path st |}
  end.

(** ** [main]: the scan button and the choice of page *)

Section Session.

(** [os.path.exists] *)
Variable os_path_exists : string -> bool.

(** The handler of the scan button, on the text of the path field.  The
    error messages it and [scan_and_process_folder] show are not kept. *)
Definition scan_button (w : World) (folder : string) (st : SessionState)
  : SessionState :=
  if negb (String.eqb folder "") && os_path_exists folder then
    scan_and_process_folder w folder
      {| processed_files := processed_files st; folder_path := folder |}
  else st.

End Session.

Inductive Page : Type :=
| ResultsPage
| WelcomePage.

(** [if st.session_state.processed_files: display_results() else: show_welcome()] *)
Definition page (st : SessionState) : Page :=
  match processed_files st with
  | [] => WelcomePage
  | _ => ResultsPage
  end.

(** ** [display_results] *)

(** [needle in hay] for two [str]. *)
Fixpoint str_contains (needle hay : string) : bool :=
  String.prefix needle hay
  || match hay with
     | EmptyString => false
     | String _ hay' => str_contains needle hay'
     end.

(** [d[key]]: the value, or [KeyError] whose text is [repr(key)]. *)
Definition getitem (d : gmap string value) (key : string) : result value :=
  match d !! key with
  | Some v => Ok v
  | None => Raise (Py.repr_str key)
  end.

(** A [for] loop or comprehension collecting [f x]; the first exception
    ends it. *)
Fixpoint for_each {A B : Type} (f : A -> result B) (l : list A) : result (list B) :=
  match l with
  | [] => Ok []
  | x :: l' => y ← f x; ys ← for_each f l'; Ok (y :: ys)
  end.

(** [[x for x in l if test x]] *)
Fixpoint select {A : Type} (test : A -> result bool) (l : list A) : result (list A) :=
  match l with
  | [] => Ok []
  | x :: l' =>
      keep ← test x; xs ← select test l';
      Ok (if keep : bool then x :: xs else xs)
  end.

(** What the value model leaves open: [str.lower] beyond ASCII, and for an
    object of another type (given by its two texts) its truth value and
    the outcome of [needle in obj.lower()]. *)
Record Runtime : Type := {
  str_lower : string -> string;
  obj_truth : string -> string -> bool;
  obj_lower_contains : string -> string -> string -> result bool
}.

Section Display.

Variable py : Runtime.

(** The truth value [if] and [not] take of an object. *)
Definition truth (v : value) : bool :=
  match v with
  | VNone => false
  | VInt z => negb (z =? 0)
  | VStr s => negb (String.eqb s "")
  | VTuple items => match items with [] => false | _ => true end
  | VObj t r => obj_truth py t r
  end.

(** [f.get('error')], as a condition. *)
Definition has_error (f : gmap string value) : bool :=
  truth (default VNone (f !! "error")).

(** The three metrics: [total_files], [successful], [error_count]. *)
Definition metrics (data : list (gmap string value)) : Z * Z * Z :=
  let total_files := Z.of_nat (List.length data) in
  let successful :=
    Z.of_nat (List.length (List.filter (fun f => negb (has_error f)) data)) in
  let error_count := total_files - successful in
  (total_files, successful, error_count).

(** [needle in name.lower()] *)
Definition lower_contains (needle : string) (name : value) : result bool :=
  match name with
  | VStr s => Ok (str_contains needle (str_lower py s))
  | VNone => Raise "'NoneType' object has no attribute 'lower'"
  | VInt _ => Raise "'int' object has no attribute 'lower'"
  | VTuple _ => Raise "'tuple' object has no attribute 'lower'"
  | VObj t r => obj_lower_contains py needle t r
  end.

(** [search_term.lower() in f['filename'].lower()] *)
Definition matches (search_term : string) (f : gmap string value) : result bool :=
  name ← getitem f "filename"; lower_contains (str_lower py search_term) name.

Definition filtered_data (search_term : string) (data : list (gmap string value))
  : result (list (gmap string value)) :=
  if negb (String.eqb search_term "") then select (matches search_term) data
  else Ok data.

(** One row of [display_data]. *)
Definition display_row (file_info : gmap string value) : result (gmap string value) :=
  filename ← getitem file_info "filename";
  size_str ← getitem file_info "size_str";
  dpi ← getitem file_info "dpi";
  color_depth ← getitem file_info "color_depth";
  compression ← getitem file_info "compression";
  format ← getitem file_info "format";
  file_size_mb ← getitem file_info "file_size_mb";
  Ok (list_to_map
        [ ("Файл", filename);
          ("Размер (пиксели)", size_str);
          ("Разрешение (DPI)", dpi);
          ("Глубина цвета", color_depth);
          ("Сжатие", compression);
          ("Формат", format);
          ("Размер файла (MB)", file_size_mb);
          ("Статус", VStr (if has_error file_info then "Ошибка" else "OK")) ]).

(** The rows handed to the table; [None] when there is none and the
    warning is shown instead. *)
Definition display_data (search_term : string) (data : list (gmap string value))
  : result (option (list (gmap string value))) :=
  shown ← filtered_data search_term data;
  rows ← for_each display_row shown;
  Ok (match rows with [] => None | _ => Some rows end).

(** The metrics are on the page before the search field is read. *)
Definition display_results (search_term : string) (data : list (gmap string value))
  : (Z * Z * Z) * result (option (list (gmap string value))) :=
  (metrics data, display_data search_term data).

End Display.

(** ** Vocabulary of the specification *)



(** A record of a failed file: [error] is set and every derived field is
    the sentinel. *)
Definition fully_failed (r : gmap string value) : Prop :=
  (exists e : string, r !! "error" = Some (VStr e))
  /\ Forall (fun key => r !! key = Some (VStr "Error"))
            ["format"; "size_str"; "dpi"; "color_depth"; "compression"; "file_size_mb"].



(** The float [100.0]. *)
Definition float_100 : spec_float := binary_normalize prec emax 100 0 false.

(** The percentage [((U - A) / U) * 100] in float arithmetic: the quotient
    rounded to the nearest float, times [100.0], rounded again. *)
Definition compression_percentage (uncompressed_size actual_file_size : Z) : spec_float :=
  SFmul prec emax
        (SFdiv prec emax (exact (uncompressed_size - actual_file_size))
                         (exact uncompressed_size))
        float_100.


(** The float [1024.0] and the size in megabytes [A / 1024 / 1024]. *)
Definition float_1024 : spec_float := binary_normalize prec emax 1024 0 false.

Definition megabytes (actual_file_size : Z) : spec_float :=
  SFdiv prec emax (SFdiv prec emax (exact actual_file_size) (exact 1024)) float_1024.

(** A name of a directory entry, as [os.walk] lists them: no separator
    occurs in it. *)
Definition is_entry_name (file : string) : Prop := posixpath.rfind "/" file = -1.

Definition recognized_extensions : list string :=
  [".jpg"; ".jpeg"; ".gif"; ".tif"; ".tiff"; ".bmp"; ".png"; ".pcx"].

(** The extension of a path, compared without regard to case. *)
Definition has_recognized_extension (path : string) : Prop :=
  Py.lower (snd (posixpath.splitext path)) ∈ recognized_extensions.

(** The real number a finite float stands for. *)
Definition F2R (m : positive) (e : Z) : R := (IZR (Zpos m) * powerRZ 2 e)%R.

(** The position of a rational [num / den] with respect to an integer [m]:
    [l] tells where it lies in the interval from [m] to [m + 1]. *)
Definition located (m : Z) (l : location) (num den : Z) : Prop :=
  match l with
  | loc_Exact => num = m * den
  | loc_Inexact Lt => m * den < num /\ 2 * num < (2 * m + 1) * den
  | loc_Inexact Eq => 2 * num = (2 * m + 1) * den
  | loc_Inexact Gt => (2 * m + 1) * den < 2 * num /\ num < (m + 1) * den
  end.

(** ** Sample images and worlds *)

Definition img_rgb : PILImage :=
  {| img_format := Some "PNG"; img_size := (100, 50); img_mode := "RGB"; img_info := ∅ |}.

Definition img_bgr15 : PILImage :=
  {| img_format := Some "BMP"; img_size := (4, 4); img_mode := "BGR;15"; img_info := ∅ |}.

(** A DPI entry whose two components are negative integers. *)
Definition img_negative_dpi : PILImage :=
  {| img_format := Some "PNG"; img_size := (100, 50); img_mode := "RGB";
     img_info := {[ "dpi" := VTuple [VInt (-300); VInt (-300)] ]} |}.

(** A DPI entry whose two components are not numbers. *)
Definition img_text_dpi : PILImage :=
  {| img_format := Some "PNG"; img_size := (100, 50); img_mode := "RGB";
     img_info := {[ "dpi" := VTuple [VStr "high"; VNone] ]} |}.

Definition img_int_dpi : PILImage :=
  {| img_format := Some "JPEG"; img_size := (640, 480); img_mode := "RGB";
     img_info := {[ "dpi" := VTuple [VInt 300; VInt 150] ]} |}.

Definition img_triple_dpi : PILImage :=
  {| img_format := Some "JPEG"; img_size := (640, 480); img_mode := "RGB";
     img_info := {[ "dpi" := VTuple [VInt 300; VInt 150; VInt 1] ]} |}.

Definition img_gif : PILImage :=
  {| img_format := Some "GIF"; img_size := (10, 10); img_mode := "P";
     img_info := {[ "compression" := VStr "jpeg" ]} |}.

(** A world in which nothing can be opened, converted or written. *)
Definition silent_world : World :=
  {| Image_open := fun _ => Raise "cannot identify image file";
     os_stat_st_size := fun _ => Raise "No such file or directory";
     Image_convert := fun _ _ => Raise "conversion not supported";
     Image_save_tell := fun _ _ => Raise "encoder error";
     os_walk := fun _ => [] |}.

(** A 1 x 1 greyscale JPEG of 1217 bytes; its BMP form takes 1082 bytes
    (headers of 54 bytes, a palette of 1024 bytes, one padded row). *)
Definition img_tiny_jpeg : PILImage :=
  {| img_format := Some "JPEG"; img_size := (1, 1); img_mode := "L";
     img_info := {[ "dpi" := VTuple [VInt 72; VInt 72] ]} |}.

Definition tiny_world : World :=
  {| Image_open := fun _ => Ok img_tiny_jpeg;
     os_stat_st_size := fun _ => Ok 1217;
     Image_convert := fun img _ => Ok img;
     Image_save_tell := fun _ _ => Ok 1082%N;
     os_walk := fun _ => [] |}.

(** A 100 x 50 RGB JPEG of 5000 bytes; its BMP form takes 15054 bytes. *)
Definition img_photo : PILImage :=
  {| img_format := Some "JPEG"; img_size := (100, 50); img_mode := "RGB"; img_info := ∅ |}.



Definition photo_world : World :=
  {| Image_open := fun _ => Ok img_photo;
     os_stat_st_size := fun _ => Ok 5000;
     Image_convert := fun img mode =>
       Ok {| img_format := None; img_size := img_size img; img_mode := mode;
             img_info := img_info img |};
     Image_save_tell := fun img _ =>
       if String.eqb (img_mode img) "RGB" then Ok 15054%N
       else Raise ("cannot write mode " ++ img_mode img ++ " as BMP");
     os_walk := fun _ => [] |}.

(** A world whose BMP writer leaves the buffer empty. *)
Definition empty_buffer_world : World :=
  {| Image_open := fun _ => Ok img_photo;
     os_stat_st_size := fun _ => Ok 5000;
     Image_convert := fun img _ => Ok img;
     Image_save_tell := fun _ _ => Ok 0%N;
     os_walk := fun _ => [] |}.

(** A folder with one file that Pillow cannot identify; its size on disk
    is 2048 bytes. *)
Definition bad_file_world : World :=
  {| Image_open := fun path => Raise ("cannot identify image file '" ++ path ++ "'");
     os_stat_st_size := fun _ => Ok 2048;
     Image_convert := fun img _ => Ok img;
     Image_save_tell := fun _ _ => Ok 58%N;
     os_walk := fun folder => [(folder, [], ["bad.jpg"])] |}.



(** A folder with two PNG files around a file that cannot be opened. *)
Definition mixed_world : World :=
  {| Image_open := fun path =>
       if String.eqb path "pics/bad.jpg"
       then Raise "cannot identify image file 'pics/bad.jpg'"
       else Ok img_rgb;
     os_stat_st_size := fun _ => Ok 15054;
     Image_convert := fun img _ => Ok img;
     Image_save_tell := fun _ _ => Ok 15054%N;
     os_walk := fun folder => [(folder, [], ["a.png"; "bad.jpg"; "c.png"])] |}.

Definition mixed_paths : list string := ["pics/a.png"; "pics/bad.jpg"; "pics/c.png"].

(** A tree with pictures, other files and a hidden file named [.png]. *)
Definition tree_world : World :=
  {| Image_open := fun _ => Ok img_rgb;
     os_stat_st_size := fun _ => Ok 15054;
     Image_convert := fun img _ => Ok img;
     Image_save_tell := fun _ _ => Ok 15054%N;
     os_walk := fun folder =>
       [ (folder, ["sub.dir"], ["a.JPG"; "notes.txt"; ".png"]);
         (folder ++ "/sub.dir", [], ["b.tiff"; "archive.tar.gz"; "c.Png"; "README"]) ] |}.

(** The image files of a whole traversal, in traversal order. *)
(** Every image file of a traversal, in the order the traversal yields
    the directories and lists their files. *)
Definition image_paths (walk : list (string * list string * list string)) : list string :=
  List.flat_map
    (fun entry => List.map (posixpath.join (fst (fst entry)))
                           (List.filter is_image_file (snd entry)))
    walk.

(** Text made of ASCII characters only, the range on which [Py.lower] and
    [Py.capitalize] are Python's. *)
Fixpoint is_ascii (s : string) : bool :=
  match s with
  | EmptyString => true
  | String a s' => (nat_of_ascii a <? 128)%nat && is_ascii s'
  end.

(** The test of [color_rows] on a row of the table, for a status text. *)
Definition row_status_is (status : string) (row : gmap string value) : bool :=
  Py.eq_str (default VNone (row !! "Статус")) status.

(** The row the table shows for a file that could not be processed. *)
Definition failure_row (name : string) : gmap string value :=
  list_to_map
    [ ("Файл", VStr name);
      ("Размер (пиксели)", VStr "Error");
      ("Разрешение (DPI)", VStr "Error");
      ("Глубина цвета", VStr "Error");
      ("Сжатие", VStr "Error");
      ("Формат", VStr "Error");
      ("Размер файла (MB)", VStr "Error");
      ("Статус", VStr "Ошибка") ].

(** A runtime for ASCII text, in which no other object is false or has a
    [lower] method. *)
Definition ascii_runtime : Runtime :=
  {| str_lower := Py.lower;
     obj_truth := fun _ _ => true;
     obj_lower_contains := fun _ _ _ => Raise "object has no attribute 'lower'" |}.

(** * Properties of the runtime *)

(** ** Fixed-point formatting rounds to nearest *)

Lemma round_half_even_nearest (num den : Z) :
  0 < den ->
  2 * Z.abs (round_half_even num den * den - num) <= den.
Proof.
  intros Hden. unfold round_half_even.
  pose proof (Z.div_mod num den ltac:(lia)) as Hdm.
  pose proof (Z.mod_pos_bound num den Hden) as Hr.
  destruct (Z.compare_spec (2 * (num mod den)) den);
    [destruct (Z.even (num / den)) | |]; nia.
Qed.

(** The digits printed for [m * 2^e] with [k] decimals are those of the
    integer nearest to [m * 2^e * 10^k]. *)
Lemma scaled_nearest (k : nat) (m : positive) (e : Z) :
  e < 0 ->
  2 * Z.abs (scaled k m e * 2 ^ (- e) - Zpos m * 10 ^ Z.of_nat k) <= 2 ^ (- e).
Proof.
  intros He. destruct e as [| p | p]; [lia | lia |].
  unfold scaled. change (- Zneg p) with (Zpos p).
  apply round_half_even_nearest. apply Z.pow_pos_nonneg; lia.
Qed.

Lemma scaled_nonneg (k : nat) (m : positive) (e : Z) : 0 <= scaled k m e.
Proof.
  destruct e as [| p | p]; unfold scaled.
  - lia.
  - pose proof (Z.pow_pos_nonneg 2 (Zpos p) ltac:(lia) ltac:(lia)).
    pose proof (Z.pow_pos_nonneg 10 (Z.of_nat k) ltac:(lia) ltac:(lia)). nia.
  - unfold round_half_even.
    pose proof (Z.pow_pos_nonneg 2 (Zpos p) ltac:(lia) ltac:(lia)) as Hden.
    pose proof (Z.pow_pos_nonneg 10 (Z.of_nat k) ltac:(lia) ltac:(lia)) as Hten.
    assert (0 <= Zpos m * 10 ^ Z.of_nat k / 2 ^ Zpos p) by (apply Z.div_pos; nia).
    destruct (_ ?= _); [destruct (Z.even _) | |]; lia.
Qed.

Lemma scaled_exact (k : nat) (m : positive) (e : Z) :
  0 <= e -> scaled k m e = Zpos m * 2 ^ e * 10 ^ Z.of_nat k.
Proof. intros He. destruct e; [reflexivity | reflexivity | lia]. Qed.

(** What CPython prints for some floats: ties go to the even digit, the
    sign of a negative zero is kept. *)
Example format_f_samples :
  format_f 1 (compression_percentage 1000 658) = "34.2"
  /\ format_f 1 (compression_percentage 2000 1755) = "12.2"
  /\ format_f 1 (compression_percentage 2000 1745) = "12.8"
  /\ format_f 1 (compression_percentage 3 1) = "66.7"
  /\ format_f 1 (compression_percentage 10000 10001) = "-0.0"
  /\ format_f 2 (megabytes 5242) = "0.00"
  /\ format_f 2 (megabytes 5243) = "0.01"
  /\ format_f 2 (megabytes 123456789) = "117.74".
Proof. vm_compute. repeat split. Qed.

Example decimal_text_samples :
  decimal_text 1 342 = "34.2" /\ decimal_text 1 5 = "0.5" /\ decimal_text 2 7 = "0.07"
  /\ decimal_text 1 1000 = "100.0".
Proof. vm_compute. repeat split. Qed.

(** ** Floats: range of the rounded results *)

Lemma digits2_pos_bounds (p : positive) :
  2 ^ (Zpos (digits2_pos p) - 1) <= Zpos p < 2 ^ Zpos (digits2_pos p).
Proof.
  induction p as [p IH | p IH |]; simpl digits2_pos.
  - rewrite Pos2Z.inj_succ, Z.pow_succ_r by lia.
    replace (Z.succ (Zpos (digits2_pos p)) - 1) with (Z.succ (Zpos (digits2_pos p) - 1)) by lia.
    rewrite Z.pow_succ_r by lia. lia.
  - rewrite Pos2Z.inj_succ, Z.pow_succ_r by lia.
    replace (Z.succ (Zpos (digits2_pos p)) - 1) with (Z.succ (Zpos (digits2_pos p) - 1)) by lia.
    rewrite Z.pow_succ_r by lia. lia.
  - simpl. lia.
Qed.

Lemma Zdigits2_nonneg (m : Z) : 0 <= Zdigits2 m.
Proof. destruct m; simpl; lia. Qed.

(** A number below [2^k] has at most [k] binary digits. *)
Lemma Zdigits2_le (m k : Z) : 0 <= k -> 0 <= m < 2 ^ k -> Zdigits2 m <= k.
Proof.
  intros Hk [Hm Hlt]. destruct m as [| p | p]; simpl; [lia | | lia].
  pose proof (digits2_pos_bounds p) as [Hlo _].
  destruct (Z_le_gt_dec (Zpos (digits2_pos p)) k) as [| Hgt]; [assumption |].
  assert (2 ^ k <= 2 ^ (Zpos (digits2_pos p) - 1)) by (apply Z.pow_le_mono_r; lia).
  lia.
Qed.

Lemma Zdigits2_lt_pow (m : Z) : 0 <= m -> m < 2 ^ Zdigits2 m.
Proof.
  intros Hm. destruct m as [| p | p]; simpl; [lia | | lia].
  apply digits2_pos_bounds.
Qed.

Lemma shr_1_halves (mrs : shr_record) :
  0 <= shr_m mrs -> 0 <= shr_m (shr_1 mrs) /\ 2 * shr_m (shr_1 mrs) <= shr_m mrs.
Proof.
  destruct mrs as [m r s]. simpl. intros Hm.
  destruct m as [| [p | p |] | p]; simpl; lia.
Qed.

Lemma iter_shr_1_bound (p : positive) :
  forall mrs : shr_record,
    0 <= shr_m mrs ->
    0 <= shr_m (SpecFloat.iter_pos shr_1 p mrs)
    /\ shr_m (SpecFloat.iter_pos shr_1 p mrs) * 2 ^ Zpos p <= shr_m mrs.
Proof.
  induction p as [p IH | p IH |]; intros mrs Hm; simpl SpecFloat.iter_pos.
  - destruct (shr_1_halves mrs Hm) as [H0 H1].
    destruct (IH _ H0) as [H2 H3]. destruct (IH _ H2) as [H4 H5].
    split; [assumption |].
    replace (Zpos p~1) with (Zpos p + Zpos p + 1) by lia.
    rewrite !Z.pow_add_r by lia. change (2 ^ 1) with 2.
    pose proof (Z.pow_pos_nonneg 2 (Zpos p)) as HP.
    apply (Z.mul_le_mono_nonneg_r _ _ (2 ^ Zpos p)) in H5; lia.
  - destruct (IH _ Hm) as [H2 H3]. destruct (IH _ H2) as [H4 H5].
    split; [assumption |].
    replace (Zpos p~0) with (Zpos p + Zpos p) by lia.
    rewrite !Z.pow_add_r by lia.
    pose proof (Z.pow_pos_nonneg 2 (Zpos p)) as HP.
    apply (Z.mul_le_mono_nonneg_r _ _ (2 ^ Zpos p)) in H5; lia.
  - change (2 ^ 1) with 2. pose proof (shr_1_halves mrs Hm). lia.
Qed.

Lemma shr_m_of_loc (m : Z) (l : location) : shr_m (shr_record_of_loc m l) = m.
Proof. destruct l as [| []]; reflexivity. Qed.

Lemma round_nearest_even_bounds (m : Z) (l : location) :
  m <= round_nearest_even m l <= m + 1.
Proof. destruct l as [| []]; simpl; try lia. destruct (Z.even m); lia. Qed.

(** One step [shr_fexp]: the exponent becomes the larger of [e] and
    [fexp (digits m + e)], and the value does not grow. *)
Lemma shr_fexp_spec (m e : Z) (l : location) :
  0 <= m ->
  let '(mrs, e') := shr_fexp prec emax m e l in
  e' = Z.max e (fexp prec emax (Zdigits2 m + e))
  /\ 0 <= shr_m mrs
  /\ shr_m mrs * 2 ^ (e' - e) <= m.
Proof.
  intros Hm. unfold shr_fexp, shr.
  destruct (fexp prec emax (Zdigits2 m + e) - e) as [| p | p] eqn:Hn.
  - rewrite shr_m_of_loc, Z.sub_diag. change (2 ^ 0) with 1. lia.
  - destruct (iter_shr_1_bound p (shr_record_of_loc m l)) as [H0 H1];
      [by rewrite shr_m_of_loc |].
    rewrite shr_m_of_loc in H1.
    replace (e + Zpos p - e) with (Zpos p) by lia. lia.
  - rewrite shr_m_of_loc, Z.sub_diag. change (2 ^ 0) with 1. lia.
Qed.

(** Rounding a mantissa whose value lies below [2^(emax - 1)] never
    overflows. *)
Lemma binary_round_aux_no_overflow (sx : bool) (m e : Z) (l : location) :
  0 <= m -> e <= emax - prec -> Zdigits2 m + e <= emax - 1 ->
  forall s : bool, binary_round_aux prec emax sx m e l <> S754_infinity s.
Proof.
  intros Hm He Hd s. unfold binary_round_aux.
  pose proof (shr_fexp_spec m e l Hm) as H1.
  destruct (shr_fexp prec emax m e l) as [mrs1 e1].
  destruct H1 as (He1 & Hm1 & Hv1).
  set (m2 := round_nearest_even (shr_m mrs1) (loc_of_shr_record mrs1)).
  pose proof (round_nearest_even_bounds (shr_m mrs1) (loc_of_shr_record mrs1)) as Hr.
  fold m2 in Hr.
  assert (Hm2 : 0 <= m2) by lia.
  pose proof (shr_fexp_spec m2 e1 loc_Exact Hm2) as H2.
  destruct (shr_fexp prec emax m2 e1 loc_Exact) as [mrs2 e2].
  destruct H2 as (He2 & Hm3 & Hv2).
  destruct (shr_m mrs2) as [| p | p]; [discriminate | | discriminate].
  destruct (e2 <=? emax - prec) eqn:Hle; [discriminate |].
  exfalso. apply Z.leb_gt in Hle.
  (* the mantissa after the first shift has at most [digits m + e - e1] digits *)
  assert (Hdig : Zdigits2 m2 + e1 <= Z.max (Zdigits2 m + e) e1 + 1).
  { pose proof (Zdigits2_lt_pow m Hm) as Hlt.
    pose proof (Zdigits2_nonneg m) as Hdm.
    destruct (Z_le_gt_dec (e1 - e) (Zdigits2 m)) as [Hsmall | Hbig].
    - assert (e <= e1) by lia.
      assert (Hpow : 2 ^ Zdigits2 m = 2 ^ (Zdigits2 m - (e1 - e)) * 2 ^ (e1 - e))
        by (rewrite <- Z.pow_add_r by lia; f_equal; lia).
      assert (shr_m mrs1 < 2 ^ (Zdigits2 m - (e1 - e))).
      { pose proof (Z.pow_pos_nonneg 2 (e1 - e)).
        pose proof (Z.pow_pos_nonneg 2 (Zdigits2 m - (e1 - e))). nia. }
      assert (m2 < 2 ^ (Zdigits2 m - (e1 - e) + 1)).
      { rewrite Z.pow_add_r by lia. change (2 ^ 1) with 2. lia. }
      pose proof (Zdigits2_le m2 (Zdigits2 m - (e1 - e) + 1)). lia.
    - assert (shr_m mrs1 = 0).
      { assert (2 ^ Zdigits2 m <= 2 ^ (e1 - e)) by (apply Z.pow_le_mono_r; lia).
        nia. }
      assert (m2 < 2 ^ 1) by (change (2 ^ 1) with 2; lia).
      pose proof (Zdigits2_le m2 1). lia. }
  unfold fexp, emin, prec, emax in *. lia.
Qed.

(** The quotient of two integers, the dividend below [2^1023] in
    absolute value, is in the range of the floats. *)
Lemma int_truediv_in_range (a b : Z) :
  b <> 0 -> Z.abs a < 2 ^ 1023 ->
  int_truediv a b = Ok (SFdiv prec emax (exact a) (exact b)).
Proof.
  intros Hb Ha. unfold int_truediv.
  destruct (Z.eqb_spec b 0) as [| _]; [contradiction |].
  destruct (SFdiv prec emax (exact a) (exact b)) as [| s | |] eqn:Hq; try reflexivity.
  exfalso. revert Hq.
  assert (Hcore : forall (sx : bool) (pa : positive),
             Zpos pa < 2 ^ 1023 ->
             SFdiv prec emax (S754_finite sx pa 0) (exact b) <> S754_infinity s).
  { intros sx pa Hpa.
    assert (Hfin : forall (sy : bool) (pb : positive),
               SFdiv prec emax (S754_finite sx pa 0) (S754_finite sy pb 0)
               <> S754_infinity s).
    { intros sy pb. unfold SFdiv, SFdiv_core_binary.
      set (d1 := Zdigits2 (Zpos pa)). set (d2 := Zdigits2 (Zpos pb)).
      set (e' := Z.min (fexp prec emax (d1 + 0 - (d2 + 0))) (0 - 0)).
      set (m' := match 0 - 0 - e' with
                 | Z0 => Zpos pa
                 | Zpos _ => Z.shiftl (Zpos pa) (0 - 0 - e')
                 | Zneg _ => 0
                 end).
      assert (He' : e' <= 0) by (unfold e'; lia).
      assert (Hm'eq : m' = Zpos pa * 2 ^ (- e')).
      { unfold m'. destruct (0 - 0 - e') as [| p | p] eqn:Hs.
        - replace (- e') with 0 by lia. change (2 ^ 0) with 1. lia.
        - rewrite Z.shiftl_mul_pow2 by lia. f_equal. f_equal. lia.
        - lia. }
      pose proof (Z_div_mod m' (Zpos pb) ltac:(lia)) as Hdm.
      destruct (Z.div_eucl m' (Zpos pb)) as [q r]. destruct Hdm as [Hmq Hr].
      assert (Hm'pos : 0 < m')
        by (rewrite Hm'eq; pose proof (Z.pow_pos_nonneg 2 (- e')); nia).
      assert (Hq0 : 0 <= q) by nia.
      assert (Hqle : q <= m') by nia.
      apply binary_round_aux_no_overflow.
      - assumption.
      - unfold prec, emax. lia.
      - pose proof (Zdigits2_lt_pow (Zpos pa) ltac:(lia)) as Hlt. fold d1 in Hlt.
        assert (Hd1 : d1 <= 1023) by (apply Zdigits2_le; lia).
        assert (0 <= d1) by apply Zdigits2_nonneg.
        assert (q < 2 ^ (d1 - e')).
        { replace (d1 - e') with (d1 + - e') by lia. rewrite Z.pow_add_r by lia.
          pose proof (Z.pow_pos_nonneg 2 (- e')). nia. }
        pose proof (Zdigits2_le q (d1 - e')). unfold emax. lia. }
    destruct b as [| pb | pb]; [contradiction | apply Hfin | apply Hfin]. }
  destruct a as [| pa | pa]; simpl exact at 1.
  - destruct b; simpl; discriminate.
  - apply (Hcore false pa). lia.
  - apply (Hcore true pa). lia.
Qed.


(** ** Floats: accuracy of the rounded results *)

Lemma located_of_record (m : Z) (l : location) :
  loc_of_shr_record (shr_record_of_loc m l) = l.
Proof. destruct l as [| []]; reflexivity. Qed.

(** One shift halves the rational and keeps track of its position. *)
Lemma shr_1_located (mrs : shr_record) (num den : Z) :
  0 <= shr_m mrs -> 0 < den ->
  located (shr_m mrs) (loc_of_shr_record mrs) num den ->
  located (shr_m (shr_1 mrs)) (loc_of_shr_record (shr_1 mrs)) num (2 * den).
Proof.
  destruct mrs as [m r s]. simpl shr_m. intros Hm Hden.
  destruct m as [| [p | p |] | p]; try lia;
    destruct r, s; simpl; unfold located; intros H; nia.
Qed.

Lemma iter_shr_1_located (p : positive) :
  forall (mrs : shr_record) (num den : Z),
    0 <= shr_m mrs -> 0 < den ->
    located (shr_m mrs) (loc_of_shr_record mrs) num den ->
    located (shr_m (SpecFloat.iter_pos shr_1 p mrs))
            (loc_of_shr_record (SpecFloat.iter_pos shr_1 p mrs))
            num (2 ^ Zpos p * den).
Proof.
  induction p as [p IH | p IH |]; intros mrs num den Hm Hden Hloc;
    simpl SpecFloat.iter_pos.
  - pose proof (shr_1_halves mrs Hm) as [H0 _].
    pose proof (iter_shr_1_bound p _ H0) as [H1 _].
    pose proof (Z.pow_pos_nonneg 2 (Zpos p) ltac:(lia) ltac:(lia)) as HP.
    replace (2 ^ Zpos p~1 * den) with (2 ^ Zpos p * (2 ^ Zpos p * (2 * den))).
    + apply IH; [assumption | nia |]. apply IH; [assumption | lia |].
      by apply shr_1_located.
    + replace (Zpos p~1) with (Zpos p + Zpos p + 1) by lia.
      rewrite !Z.pow_add_r by lia. change (2 ^ 1) with 2. ring.
  - pose proof (iter_shr_1_bound p _ Hm) as [H1 _].
    pose proof (Z.pow_pos_nonneg 2 (Zpos p) ltac:(lia) ltac:(lia)) as HP.
    replace (2 ^ Zpos p~0 * den) with (2 ^ Zpos p * (2 ^ Zpos p * den)).
    + apply IH; [assumption | nia |]. by apply IH.
    + replace (Zpos p~0) with (Zpos p + Zpos p) by lia.
      rewrite !Z.pow_add_r by lia. ring.
  - change (2 ^ 1) with 2. by apply shr_1_located.
Qed.

(** Rounding to nearest picks an integer at distance at most one half. *)
Lemma round_nearest_even_located (m : Z) (l : location) (num den : Z) :
  0 < den -> located m l num den ->
  2 * Z.abs (round_nearest_even m l * den - num) <= den.
Proof.
  intros Hden. destruct l as [| []]; simpl; intros H; try nia.
  destruct (Z.even m); nia.
Qed.

(** The position of a quotient from its remainder. *)
Lemma new_location_located (q r b : Z) :
  0 <= r < b -> located q (new_location b r) (q * b + r) b.
Proof.
  intros Hr. unfold new_location.
  destruct (Z.even b) eqn:Heven.
  - unfold new_location_even. destruct (Z.eqb_spec r 0) as [-> | Hr0]; simpl; [lia |].
    destruct (Z.compare_spec (2 * r) b); simpl; nia.
  - unfold new_location_odd. destruct (Z.eqb_spec r 0) as [-> | Hr0]; simpl; [lia |].
    assert (Hodd : Z.odd b = true) by (rewrite <- Z.negb_even, Heven; reflexivity).
    apply Z.odd_spec in Hodd as [j Hj].
    destruct (Z.compare_spec (2 * r + 1) b); simpl; nia.
Qed.

Lemma located_bounds (m : Z) (l : location) (num den : Z) :
  0 < den -> located m l num den -> m * den <= num < (m + 1) * den.
Proof. intros Hden. destruct l as [| []]; simpl; nia. Qed.

Lemma Zdigits2_eq (m k : Z) : 0 < k -> 2 ^ (k - 1) <= m < 2 ^ k -> Zdigits2 m = k.
Proof.
  intros Hk [Hlo Hhi].
  assert (Hm : 0 < m) by (pose proof (Z.pow_pos_nonneg 2 (k - 1)); lia).
  pose proof (Zdigits2_le m k ltac:(lia) ltac:(lia)) as Hle.
  pose proof (Zdigits2_lt_pow m ltac:(lia)) as Hlt.
  pose proof (Zdigits2_nonneg m) as Hnn.
  destruct (Z_le_gt_dec k (Zdigits2 m)) as [| Hsmall]; [lia |].
  assert (2 ^ Zdigits2 m <= 2 ^ (k - 1)) by (apply Z.pow_le_mono_r; lia).
  lia.
Qed.

Lemma Zdigits2_bounds (m : Z) :
  0 < m -> 2 ^ (Zdigits2 m - 1) <= m < 2 ^ Zdigits2 m.
Proof.
  intros Hm. destruct m as [| p | p]; try lia. apply digits2_pos_bounds.
Qed.

Lemma fexp_normal (x : Z) : -1021 <= x -> fexp prec emax x = x - 53.
Proof. unfold fexp, emin, prec, emax. lia. Qed.

(** Rounding a mantissa of at least 53 bits, away from the subnormal
    numbers and from overflow: the result has a 53-bit mantissa and lies
    within half a unit in the last place of the rational it rounds. *)
Lemma binary_round_aux_normal
    (sx : bool) (mx ex : Z) (lx : location) (num den : Z) :
  0 < den -> located mx lx num den ->
  2 ^ 52 <= mx ->
  -1021 <= Zdigits2 mx + ex ->
  Zdigits2 mx + ex <= 1023 ->
  exists (mf : positive) (ef : Z),
    binary_round_aux prec emax sx mx ex lx = S754_finite sx mf ef
    /\ 2 ^ 52 <= Zpos mf < 2 ^ 53
    /\ Zdigits2 mx + ex - 53 <= ef <= Zdigits2 mx + ex - 52
    /\ ex <= ef
    /\ 2 * Z.abs (Zpos mf * 2 ^ (ef - ex) * den - num) <= 2 ^ (ef - ex) * den.
Proof.
  intros Hden Hloc Hmx Hlow Hhigh.
  assert (Hpos : 0 < mx) by lia.
  pose proof (Zdigits2_bounds mx Hpos) as [Hdlo Hdhi].
  set (d := Zdigits2 mx) in *.
  assert (Hd : 53 <= d).
  { destruct (Z_le_gt_dec 53 d) as [| Hsmall]; [assumption |].
    assert (2 ^ d <= 2 ^ 52) by (apply Z.pow_le_mono_r; lia). lia. }
  (* the first shift *)
  assert (Hfirst : exists (mrs : shr_record),
             shr_fexp prec emax mx ex lx = (mrs, d + ex - 53)
             /\ 2 ^ 52 <= shr_m mrs < 2 ^ 53
             /\ located (shr_m mrs) (loc_of_shr_record mrs) num (2 ^ (d - 53) * den)).
  { unfold shr_fexp, shr. fold d. rewrite fexp_normal by lia.
    replace (d + ex - 53 - ex) with (d - 53) by lia.
    destruct (d - 53) as [| p | p] eqn:Hn; [| | lia].
    - exists (shr_record_of_loc mx lx).
      rewrite shr_m_of_loc, located_of_record.
      assert (d = 53) as Hd53 by lia. rewrite Hd53 in *.
      split; [f_equal; lia |]. split; [simpl in *; lia |].
      change (2 ^ 0) with 1. by rewrite Z.mul_1_l.
    - exists (SpecFloat.iter_pos shr_1 p (shr_record_of_loc mx lx)).
      split; [f_equal; lia |].
      pose proof (iter_shr_1_located p (shr_record_of_loc mx lx) num den) as Hit.
      rewrite shr_m_of_loc, located_of_record in Hit.
      specialize (Hit ltac:(lia) Hden Hloc).
      split; [| exact Hit].
      pose proof (Z.pow_pos_nonneg 2 (Zpos p) ltac:(lia) ltac:(lia)) as HP.
      assert (HpD : 0 < 2 ^ Zpos p * den) by nia.
      pose proof (located_bounds _ _ _ _ HpD Hit) as [Hb1 Hb2].
      pose proof (located_bounds _ _ _ _ Hden Hloc) as [Hb3 Hb4].
      assert (Hsplit : 2 ^ d = 2 ^ 53 * 2 ^ Zpos p)
        by (rewrite <- Z.pow_add_r by lia; f_equal; lia).
      assert (Hsplit' : 2 ^ (d - 1) = 2 ^ 52 * 2 ^ Zpos p)
        by (rewrite <- Z.pow_add_r by lia; f_equal; lia).
      rewrite Hsplit in Hdhi. rewrite Hsplit' in Hdlo.
      set (m1 := shr_m (SpecFloat.iter_pos shr_1 p (shr_record_of_loc mx lx))) in *.
      split.
      + assert (2 ^ 52 * (2 ^ Zpos p * den) < (m1 + 1) * (2 ^ Zpos p * den)) by nia.
        assert (0 < 2 ^ Zpos p * den) by nia.
        assert (2 ^ 52 < m1 + 1) by (apply (Z.mul_lt_mono_pos_r (2 ^ Zpos p * den)); assumption).
        lia.
      + assert (m1 * (2 ^ Zpos p * den) < 2 ^ 53 * (2 ^ Zpos p * den)) by nia.
        assert (0 < 2 ^ Zpos p * den) by nia.
        apply (Z.mul_lt_mono_pos_r (2 ^ Zpos p * den)); assumption. }
  destruct Hfirst as (mrs1 & Hshr1 & Hm1 & Hloc1).
  unfold binary_round_aux. rewrite Hshr1.
  set (D := 2 ^ (d - 53) * den) in *.
  assert (HD : 0 < D) by (pose proof (Z.pow_pos_nonneg 2 (d - 53)); nia).
  pose proof (round_nearest_even_bounds (shr_m mrs1) (loc_of_shr_record mrs1)) as Hr.
  pose proof (round_nearest_even_located _ _ _ _ HD Hloc1) as Hnear.
  set (m2 := round_nearest_even (shr_m mrs1) (loc_of_shr_record mrs1)) in *.
  set (e1 := d + ex - 53) in *.
  destruct (Z_lt_le_dec m2 (2 ^ 53)) as [Hno_carry | Hcarry].
  - (* the rounded mantissa still has 53 bits *)
    assert (Hd2 : Zdigits2 m2 = 53) by (apply Zdigits2_eq; simpl; lia).
    unfold shr_fexp, shr. rewrite Hd2, fexp_normal by lia.
    replace (53 + e1 - 53 - e1) with 0 by lia.
    simpl shr_m. destruct m2 as [| mf | mf] eqn:Hm2; [lia | | lia].
    assert (Hle : (e1 <=? emax - prec) = true) by (apply Z.leb_le; unfold emax, prec; lia).
    rewrite Hle. exists mf, e1.
    split; [reflexivity |]. split; [lia |]. split; [lia |]. split; [lia |].
    replace (e1 - ex) with (d - 53) by lia. fold D.
    replace (Zpos mf * 2 ^ (d - 53) * den) with (Zpos mf * D) by (unfold D; ring).
    exact Hnear.
  - (* the rounding carried into a 54th bit *)
    assert (Hm2 : m2 = 2 ^ 53) by lia.
    unfold shr_fexp, shr. rewrite Hm2.
    change (Zdigits2 (2 ^ 53)) with 54. rewrite fexp_normal by lia.
    replace (54 + e1 - 53 - e1) with 1 by lia.
    simpl shr_m.
    assert (Hle : (e1 + 1 <=? emax - prec) = true) by (apply Z.leb_le; unfold emax, prec; lia).
    rewrite Hle. eexists _, (e1 + 1).
    split; [reflexivity |]. split; [simpl; lia |]. split; [lia |]. split; [lia |].
    replace (e1 + 1 - ex) with (d - 53 + 1) by lia.
    rewrite Z.pow_add_r by lia. change (2 ^ 1) with 2.
    rewrite Hm2 in Hnear.
    replace (4503599627370496 * (2 ^ (d - 53) * 2) * den) with (2 ^ 53 * D)
      by (unfold D; change (2 ^ 53) with (4503599627370496 * 2); ring).
    replace (2 ^ (d - 53) * 2 * den) with (2 * D) by (unfold D; ring).
    lia.
Qed.

Lemma IZR_pow2 (k : Z) : 0 <= k -> IZR (2 ^ k) = powerRZ 2 k.
Proof.
  intros Hk. rewrite <- (Z2Nat.id k Hk) at 1.
  rewrite <- pow_IZR, pow_powerRZ. rewrite Z2Nat.id by assumption. reflexivity.
Qed.

Lemma powerRZ_2_pos (k : Z) : (0 < powerRZ 2 k)%R.
Proof. apply powerRZ_lt. lra. Qed.

Lemma powerRZ_2_add (j k : Z) : powerRZ 2 (j + k) = (powerRZ 2 j * powerRZ 2 k)%R.
Proof. apply powerRZ_add. lra. Qed.

(** From the integers to the reals: a bound scaled by [2^s * den]. *)
Lemma scaled_bound_to_R (mf : positive) (ef s num den : Z) :
  0 < den -> 0 <= s -> 0 <= ef + s ->
  2 * Z.abs (Zpos mf * 2 ^ (ef + s) * den - num) <= 2 ^ (ef + s) * den ->
  (Rabs (F2R mf ef - IZR num / (powerRZ 2 s * IZR den)) <= powerRZ 2 ef / 2)%R.
Proof.
  intros Hden Hs Hes Hbound. unfold F2R.
  assert (HdenR : (0 < IZR den)%R) by (apply IZR_lt; lia).
  pose proof (powerRZ_2_pos s) as Hps. pose proof (powerRZ_2_pos ef) as Hpe.
  assert (Hscale : (0 < powerRZ 2 s * IZR den)%R) by (apply Rmult_lt_0_compat; assumption).
  apply IZR_le in Hbound.
  rewrite !mult_IZR, abs_IZR, minus_IZR, !mult_IZR, IZR_pow2 in Hbound by lia.
  rewrite powerRZ_2_add in Hbound.
  replace (IZR (Zpos mf) * powerRZ 2 ef - IZR num / (powerRZ 2 s * IZR den))%R
    with ((IZR (Zpos mf) * (powerRZ 2 ef * powerRZ 2 s) * IZR den - IZR num)
          / (powerRZ 2 s * IZR den))%R by (field; split; lra).
  unfold Rdiv at 1. rewrite Rabs_mult, (Rabs_right (/ _)).
  2:{ apply Rle_ge. left. by apply Rinv_0_lt_compat. }
  apply (Rmult_le_reg_r (powerRZ 2 s * IZR den)); [assumption |].
  rewrite Rmult_assoc, Rinv_l, Rmult_1_r by lra.
  replace (powerRZ 2 ef / 2 * (powerRZ 2 s * IZR den))%R
    with (powerRZ 2 ef * powerRZ 2 s * IZR den / 2)%R by field.
  lra.
Qed.

(** The quotient of two positive integers below [2^64]: a normal float
    within half a unit in the last place of the exact quotient. *)
Lemma SFdiv_accuracy (sx : bool) (pa : positive) (b : Z) :
  Zpos pa < 2 ^ 64 -> 0 < b < 2 ^ 64 ->
  exists (mf : positive) (ef : Z),
    SFdiv prec emax (S754_finite sx pa 0) (exact b) = S754_finite sx mf ef
    /\ 2 ^ 52 <= Zpos mf < 2 ^ 53
    /\ -117 <= ef <= 12
    /\ (Zpos pa <= b -> ef <= -51)
    /\ (Rabs (F2R mf ef - IZR (Zpos pa) / IZR b) <= powerRZ 2 ef / 2)%R.
Proof.
  intros Ha64 [Hb Hb64]. assert (Ha : 0 < Zpos pa) by lia.
  destruct b as [| pb | pb]; try lia.
  simpl exact. unfold SFdiv, SFdiv_core_binary.
  pose proof (Zdigits2_bounds (Zpos pa) Ha) as [Hd1lo Hd1hi].
  pose proof (Zdigits2_bounds (Zpos pb) Hb) as [Hd2lo Hd2hi].
  pose proof (Zdigits2_le (Zpos pa) 64 ltac:(lia) ltac:(lia)) as Hd1.
  pose proof (Zdigits2_le (Zpos pb) 64 ltac:(lia) ltac:(lia)) as Hd2.
  assert (Hd1pos : 1 <= Zdigits2 (Zpos pa)) by (simpl; lia).
  assert (Hd2pos : 1 <= Zdigits2 (Zpos pb)) by (simpl; lia).
  set (d1 := Zdigits2 (Zpos pa)) in *. set (d2 := Zdigits2 (Zpos pb)) in *.
  rewrite fexp_normal by lia.
  set (e' := Z.min (d1 + 0 - (d2 + 0) - 53) (0 - 0)).
  set (s := - e').
  assert (Hs : 0 <= s) by (unfold s, e'; lia).
  assert (Hs' : 53 + d2 - d1 <= s) by (unfold s, e'; lia).
  replace (0 - 0 - e') with s by (unfold s; lia).
  set (m' := match s with
             | 0 => Zpos pa
             | Zpos _ => Z.shiftl (Zpos pa) s
             | Zneg _ => 0
             end).
  assert (Hm' : m' = Zpos pa * 2 ^ s).
  { unfold m'. destruct s as [| p | p] eqn:Hseq; [| | lia].
    - change (2 ^ 0) with 1. lia.
    - by rewrite Z.shiftl_mul_pow2. }
  pose proof (Z_div_mod m' (Zpos pb) ltac:(lia)) as Hdm.
  destruct (Z.div_eucl m' (Zpos pb)) as [q r]. destruct Hdm as [Hmq Hr].
  pose proof (Z.pow_pos_nonneg 2 s ltac:(lia) Hs) as H2s.
  (* the quotient has at least 53 bits *)
  assert (Hq52 : 2 ^ 52 <= q).
  { assert (Hbig : 2 ^ (52 + d2) <= m').
    { rewrite Hm'. transitivity (2 ^ (d1 - 1) * 2 ^ s); [| nia].
      rewrite <- Z.pow_add_r by lia. apply Z.pow_le_mono_r; lia. }
    rewrite Z.pow_add_r in Hbig by lia.
    destruct (Z_lt_le_dec q (2 ^ 52)) as [Hsmall | ?]; [| assumption].
    assert (Zpos pb * q + r < Zpos pb * 2 ^ 52) by nia.
    assert (Zpos pb * 2 ^ 52 < 2 ^ 52 * 2 ^ d2) by nia. lia. }
  assert (Hqm : q <= m') by nia.
  assert (Hqhi : q < 2 ^ (d1 + s)).
  { rewrite Z.pow_add_r by lia. nia. }
  pose proof (Zdigits2_le q (d1 + s) ltac:(lia) ltac:(lia)) as Hdq.
  assert (Hdq53 : 53 <= Zdigits2 q).
  { pose proof (Zdigits2_lt_pow q ltac:(lia)) as Hlt.
    pose proof (Zdigits2_nonneg q).
    destruct (Z_le_gt_dec 53 (Zdigits2 q)) as [| Hsmall]; [assumption |].
    assert (2 ^ Zdigits2 q <= 2 ^ 52) by (apply Z.pow_le_mono_r; lia). lia. }
  assert (Hs64 : s <= 53 + 64) by (unfold s, e'; lia).
  destruct (binary_round_aux_normal (xorb sx false) q e' (new_location (Zpos pb) r)
              (q * Zpos pb + r) (Zpos pb))
    as (mf & ef & Hround & Hmf & Hef & Hee' & Hbound).
  { lia. }
  { by apply new_location_located. }
  { assumption. }
  { unfold s in *. lia. }
  { unfold s in *. lia. }
  rewrite xorb_false_r in Hround |- *. exists mf, ef.
  split; [exact Hround |]. split; [exact Hmf |].
  split; [unfold s in *; lia |]. split.
  - intros Hab.
    assert (Hq2s : q < 2 ^ (s + 1)).
    { rewrite Z.pow_add_r by lia. change (2 ^ 1) with 2. nia. }
    pose proof (Zdigits2_le q (s + 1) ltac:(lia) ltac:(lia)). unfold s in *. lia.
  - pose proof (scaled_bound_to_R mf ef s (q * Zpos pb + r) (Zpos pb)
                  ltac:(lia) Hs ltac:(unfold s; lia)) as HR.
    replace (ef + s) with (ef - e') in HR by (unfold s; lia).
    specialize (HR Hbound).
    replace (IZR (q * Zpos pb + r) / (powerRZ 2 s * IZR (Zpos pb)))%R
      with (IZR (Zpos pa) / IZR (Zpos pb))%R in HR; [exact HR |].
    replace (q * Zpos pb + r) with (Zpos pa * 2 ^ s) by lia.
    rewrite mult_IZR, IZR_pow2 by lia.
    pose proof (powerRZ_2_pos s). assert (0 < IZR (Zpos pb))%R by (apply IZR_lt; lia).
    field. split; lra.
Qed.

Lemma float_100_finite : float_100 = S754_finite false 7036874417766400 (-46).
Proof. reflexivity. Qed.

(** Times [100.0]: again a normal float within half a unit in the last
    place of the exact product. *)
Lemma SFmul_100_accuracy (sx : bool) (mf : positive) (ef : Z) :
  2 ^ 52 <= Zpos mf < 2 ^ 53 -> -117 <= ef <= 12 ->
  exists (mp : positive) (ep : Z),
    SFmul prec emax (S754_finite sx mf ef) float_100 = S754_finite sx mp ep
    /\ 2 ^ 52 <= Zpos mp < 2 ^ 53
    /\ ef + 6 <= ep <= ef + 8
    /\ (Rabs (F2R mp ep - 100 * F2R mf ef) <= powerRZ 2 ep / 2)%R.
Proof.
  intros Hmf Hef. rewrite float_100_finite. unfold SFmul. rewrite xorb_false_r.
  set (M := Zpos (mf * 7036874417766400)).
  assert (HM : M = Zpos mf * (100 * 2 ^ 46)) by (unfold M; lia).
  assert (HMlo : 2 ^ 104 <= M) by (rewrite HM; change (2 ^ 104) with (2 ^ 52 * 2 ^ 52); nia).
  assert (HMhi : M < 2 ^ 106) by (rewrite HM; change (2 ^ 106) with (2 ^ 53 * 2 ^ 53); nia).
  pose proof (Zdigits2_le M 106 ltac:(lia) ltac:(lia)) as Hd.
  assert (Hd105 : 105 <= Zdigits2 M).
  { pose proof (Zdigits2_lt_pow M ltac:(lia)) as Hlt.
    pose proof (Zdigits2_nonneg M).
    destruct (Z_le_gt_dec 105 (Zdigits2 M)) as [| Hsmall]; [assumption |].
    assert (2 ^ Zdigits2 M <= 2 ^ 104) by (apply Z.pow_le_mono_r; lia). lia. }
  destruct (binary_round_aux_normal sx M (ef + -46) loc_Exact M 1)
    as (mp & ep & Hround & Hmp & Hep & Hee & Hbound).
  { lia. }
  { simpl. lia. }
  { assert (2 ^ 52 <= 2 ^ 104) by (apply Z.pow_le_mono_r; lia). lia. }
  { lia. }
  { lia. }
  exists mp, ep. split; [exact Hround |]. split; [exact Hmp |]. split; [lia |].
  pose proof (scaled_bound_to_R mp ep (46 - ef) M 1 ltac:(lia) ltac:(lia) ltac:(lia)) as HR.
  replace (ep + (46 - ef)) with (ep - (ef + -46)) in HR by lia.
  specialize (HR Hbound).
  replace (IZR M / (powerRZ 2 (46 - ef) * 1))%R with (100 * F2R mf ef)%R in HR;
    [exact HR |].
  unfold F2R. rewrite HM, !mult_IZR, IZR_pow2 by lia.
  replace (46 - ef) with (46 + - ef) by lia. rewrite powerRZ_2_add.
  pose proof (powerRZ_2_pos 46). pose proof (powerRZ_2_pos ef).
  pose proof (powerRZ_2_pos (- ef)).
  assert (Hinv : (powerRZ 2 ef * powerRZ 2 (- ef) = 1)%R).
  { rewrite <- powerRZ_2_add. replace (ef + - ef) with 0 by lia. reflexivity. }
  apply (Rmult_eq_reg_r (powerRZ 2 (- ef))); [| lra].
  field_simplify; [| lra]. 
  replace (100 * IZR (Zpos mf) * powerRZ 2 ef * powerRZ 2 (- ef))%R
    with (100 * IZR (Zpos mf) * (powerRZ 2 ef * powerRZ 2 (- ef)))%R by ring.
  rewrite Hinv. ring.
Qed.

(** The digits printed with one decimal are the nearest tenths. *)
Lemma scaled_accuracy (mp : positive) (ep : Z) :
  ep < 0 ->
  (Rabs (IZR (scaled 1 mp ep) - 10 * F2R mp ep) <= 1 / 2)%R.
Proof.
  intros Hep. pose proof (scaled_nearest 1 mp ep Hep) as Hn.
  change (10 ^ Z.of_nat 1) with 10 in Hn.
  assert (H2 : 0 < 2 ^ (- ep)) by (apply Z.pow_pos_nonneg; lia).
  apply IZR_le in Hn.
  rewrite mult_IZR, abs_IZR, minus_IZR, !mult_IZR, IZR_pow2 in Hn by lia.
  unfold F2R. pose proof (powerRZ_2_pos ep) as Hp. pose proof (powerRZ_2_pos (- ep)) as Hq.
  assert (Hinv : (powerRZ 2 ep * powerRZ 2 (- ep) = 1)%R).
  { rewrite <- powerRZ_2_add. replace (ep + - ep) with 0 by lia. reflexivity. }
  replace (IZR (scaled 1 mp ep) - 10 * (IZR (Zpos mp) * powerRZ 2 ep))%R
    with ((IZR (scaled 1 mp ep) * powerRZ 2 (- ep) - IZR (Zpos mp) * 10) * powerRZ 2 ep)%R.
  2:{ replace (IZR (scaled 1 mp ep))
        with (IZR (scaled 1 mp ep) * (powerRZ 2 ep * powerRZ 2 (- ep)))%R at 2
        by (rewrite Hinv; ring).
      ring. }
  rewrite Rabs_mult, (Rabs_right (powerRZ 2 ep)) by lra.
  apply (Rmult_le_reg_r (powerRZ 2 (- ep))); [assumption |].
  rewrite Rmult_assoc, Hinv, Rmult_1_r. lra.
Qed.


(** ** Paths *)

Section Paths.

Import posixpath.

Lemma append_cons (a : ascii) (s1 s2 : string) :
  String a s1 ++ s2 = String a (s1 ++ s2).
Proof. reflexivity. Qed.

Lemma append_nil (s : string) : EmptyString ++ s = s.
Proof. reflexivity. Qed.

Lemma rfind_bounds (c : ascii) (s : string) :
  -1 <= rfind c s < Z.of_nat (String.length s).
Proof.
  induction s as [| a s IH]; simpl rfind; simpl String.length; [lia |].
  destruct (Z.leb_spec 0 (rfind c s)); [lia |].
  destruct (Ascii.eqb a c); lia.
Qed.

Lemma rfind_app (c : ascii) (s1 s2 : string) :
  rfind c (s1 ++ s2)
  = if 0 <=? rfind c s2 then Z.of_nat (String.length s1) + rfind c s2 else rfind c s1.
Proof.
  induction s1 as [| a s1 IH].
  - rewrite append_nil. change (rfind c EmptyString) with (-1).
    change (Z.of_nat (String.length EmptyString)) with 0.
    pose proof (rfind_bounds c s2).
    destruct (Z.leb_spec 0 (rfind c s2)); lia.
  - rewrite append_cons. cbn [rfind]. rewrite IH. pose proof (rfind_bounds c s1).
    change (String.length (String a s1)) with (S (String.length s1)).
    destruct (Z.leb_spec 0 (rfind c s2)).
    + destruct (Z.leb_spec 0 (Z.of_nat (String.length s1) + rfind c s2)); lia.
    + reflexivity.
Qed.

(** The last character of [s] is its last occurrence of [c] ... *)
Lemma rfind_endswith (c : ascii) (s : string) :
  endswith c s = true -> rfind c s = Z.of_nat (String.length s) - 1.
Proof.
  induction s as [| a s IH]; [discriminate |].
  destruct s as [| b s].
  - simpl. intros ->. reflexivity.
  - intros Hend. change (endswith c (String a (String b s))) with (endswith c (String b s)) in Hend.
    specialize (IH Hend).
    change (rfind c (String a (String b s)))
      with (let r := rfind c (String b s) in
            if 0 <=? r then r + 1 else if Ascii.eqb a c then 0 else -1).
    cbv zeta. rewrite IH.
    change (String.length (String a (String b s))) with (S (String.length (String b s))).
    destruct (Z.leb_spec 0 (Z.of_nat (String.length (String b s)) - 1)); [lia |].
    simpl String.length in *. lia.
Qed.

(** ... and not an occurrence of any other character. *)
Lemma rfind_endswith_other (c d : ascii) (s : string) :
  endswith c s = true -> c <> d -> rfind d s < Z.of_nat (String.length s) - 1.
Proof.
  intros Hend Hcd. induction s as [| a s IH]; [discriminate |].
  destruct s as [| b s].
  - simpl in Hend. apply Ascii.eqb_eq in Hend as ->.
    simpl. destruct (Ascii.eqb_spec c d); [contradiction | lia].
  - change (endswith c (String a (String b s))) with (endswith c (String b s)) in Hend.
    specialize (IH Hend).
    change (rfind d (String a (String b s)))
      with (let r := rfind d (String b s) in
            if 0 <=? r then r + 1 else if Ascii.eqb a d then 0 else -1).
    cbv zeta.
    change (String.length (String a (String b s))) with (S (String.length (String b s))).
    destruct (Z.leb_spec 0 (rfind d (String b s))); [lia |].
    simpl String.length in *. destruct (Ascii.eqb a d); lia.
Qed.

Lemma drop_app_length (s1 s2 : string) (n : nat) :
  drop (String.length s1 + n) (s1 ++ s2) = drop n s2.
Proof.
  induction s1 as [| a s1 IH]; [reflexivity |].
  rewrite append_cons. exact IH.
Qed.

Lemma startswith_rfind (c : ascii) (s : string) :
  rfind c s = -1 -> startswith c s = false.
Proof.
  destruct s as [| a s]; [reflexivity |]. simpl.
  pose proof (rfind_bounds c s).
  destruct (Z.leb_spec 0 (rfind c s)); [lia |].
  destruct (Ascii.eqb a c); [discriminate | reflexivity].
Qed.

Lemma app_assoc_string (s1 s2 s3 : string) : s1 ++ s2 ++ s3 = (s1 ++ s2) ++ s3.
Proof.
  induction s1 as [| a s1 IH]; [reflexivity |].
  rewrite !append_cons. by rewrite IH.
Qed.

Lemma endswith_app_sep (c : ascii) (s : string) :
  endswith c (s ++ String c EmptyString) = true.
Proof.
  induction s as [| a s IH]; [apply Ascii.eqb_refl |].
  rewrite append_cons.
  destruct (s ++ String c EmptyString) eqn:Hs; [by destruct s | exact IH].
Qed.

(** The extension of [prefix ++ file] is that of [file] when [prefix] is
    empty or ends with the separator. *)
Lemma splitext_prefixed (prefix file : string) :
  prefix = EmptyString \/ endswith "/" prefix = true ->
  is_entry_name file ->
  snd (splitext (prefix ++ file)) = snd (splitext file).
Proof.
  intros Hprefix Hname. unfold is_entry_name in Hname. unfold splitext.
  rewrite !rfind_app, Hname. change (0 <=? -1) with false. cbv iota.
  assert (Hsep : rfind "/" prefix = Z.of_nat (String.length prefix) - 1).
  { destruct Hprefix as [-> | Hend]; [reflexivity | by apply rfind_endswith]. }
  assert (Hdot : rfind "." prefix <= rfind "/" prefix).
  { destruct Hprefix as [-> | Hend]; [reflexivity |].
    pose proof (rfind_endswith_other "/" "." prefix Hend ltac:(discriminate)). lia. }
  pose proof (rfind_bounds "." file) as Hd.
  rewrite Hsep in *.
  destruct (Z.leb_spec 0 (rfind "." file)) as [Hfound | Hnone].
  - destruct (Z.ltb_spec (Z.of_nat (String.length prefix) - 1)
                (Z.of_nat (String.length prefix) + rfind "." file)); [| lia].
    destruct (Z.ltb_spec (-1) (rfind "." file)); [| lia].
    replace (Z.to_nat (Z.of_nat (String.length prefix) - 1 + 1))
      with (String.length prefix + 0)%nat by lia.
    replace (Z.to_nat (Z.of_nat (String.length prefix) + rfind "." file))
      with (String.length prefix + Z.to_nat (rfind "." file))%nat by lia.
    rewrite !drop_app_length.
    replace (Z.of_nat (String.length prefix) + rfind "." file
             - (Z.of_nat (String.length prefix) - 1 + 1))
      with (rfind "." file - (-1 + 1)) by lia.
    change (Z.to_nat (-1 + 1)) with 0%nat.
    destruct (has_non_dot _ _); reflexivity.
  - destruct (Z.ltb_spec (Z.of_nat (String.length prefix) - 1) (rfind "." prefix));
      [lia |].
    destruct (Z.ltb_spec (-1) (rfind "." file)); [lia | reflexivity].
Qed.

Lemma splitext_join (root file : string) :
  is_entry_name file ->
  snd (splitext (join root file)) = snd (splitext file).
Proof.
  intros Hname. unfold join. rewrite (startswith_rfind "/" file Hname).
  destruct (String.eqb_spec root EmptyString) as [-> | Hroot]; simpl orb.
  - apply (splitext_prefixed EmptyString); [by left | assumption].
  - destruct (endswith "/" root) eqn:Hend.
    + apply splitext_prefixed; [by right | assumption].
    + rewrite app_assoc_string.
      apply splitext_prefixed; [right; apply endswith_app_sep | assumption].
Qed.

End Paths.

(** * Properties of the program *)

(** ** Colour depth *)

Lemma mode_bits_unmapped (mode : string) :
  mode ∉ ["1"; "L"; "P"; "RGB"; "RGBA"; "CMYK"; "YCbCr"; "LAB"; "HSV"; "I"; "F"] ->
  mode_bits !! mode = None.
Proof.
  intros Hnot. unfold mode_bits. simpl.
  repeat (rewrite lookup_insert_ne; [| intros <-; apply Hnot; by apply (bool_decide_unpack _)]).
  apply lookup_empty.
Qed.

(** C5. [get_color_depth] is a total function of the mode: each of the
    eleven modes of the table gives its listed number of bits, and every
    other mode string gives a label that contains the mode string. *)
Theorem C5_color_depth_table_and_fallback (img : PILImage) :
  (forall mode bits,
      (mode, bits) ∈ [ ("1", 1); ("L", 8); ("P", 8); ("RGB", 24); ("RGBA", 32);
                       ("CMYK", 32); ("YCbCr", 24); ("LAB", 24); ("HSV", 24);
                       ("I", 32); ("F", 32) ] ->
      img_mode img = mode -> get_color_depth img = VInt bits)
  /\ (img_mode img ∉ ["1"; "L"; "P"; "RGB"; "RGBA"; "CMYK"; "YCbCr"; "LAB"; "HSV"; "I"; "F"] ->
      exists before after : string,
        get_color_depth img = VStr (before ++ img_mode img ++ after)).
Proof.
  split.
  - intros mode bits Hin Hmode. unfold get_color_depth. rewrite Hmode.
    repeat (apply elem_of_cons in Hin as [[= -> ->] | Hin]; [reflexivity |]).
    by apply elem_of_nil in Hin.
  - intros Hnot. exists "Unknown (", ")".
    unfold get_color_depth. by rewrite (mode_bits_unmapped _ Hnot).
Qed.

Lemma C5_witness :
  (img_mode img_rgb = "RGB" /\ get_color_depth img_rgb = VInt 24)
  /\ ((img_mode img_bgr15
         ∉ ["1"; "L"; "P"; "RGB"; "RGBA"; "CMYK"; "YCbCr"; "LAB"; "HSV"; "I"; "F"])
      /\ (exists before after : string,
            get_color_depth img_bgr15 = VStr (before ++ img_mode img_bgr15 ++ after))).
Proof.
  split; (split; [try reflexivity; by apply (bool_decide_unpack _) |]).
  - apply (proj1 (C5_color_depth_table_and_fallback img_rgb) "RGB" 24).
    + by apply (bool_decide_unpack _).
    + reflexivity.
  - apply (proj2 (C5_color_depth_table_and_fallback img_bgr15)).
    by apply (bool_decide_unpack _).
Defined.

(** ** Resolution *)

(** C3, as stated, fails: a pair of negative components is not replaced by
    the default, it is printed like any other pair. *)
Lemma C3_negative_pair_is_printed :
  img_info img_negative_dpi !! "dpi" = Some (VTuple [VInt (-300); VInt (-300)])
  /\ get_dpi img_negative_dpi = "-300 × -300"
  /\ get_dpi img_negative_dpi <> "72 × 72".
Proof. repeat split. discriminate. Qed.

Example get_dpi_text_pair : get_dpi img_text_dpi = "high × None".
Proof. reflexivity. Qed.

(** C3, amended. Every two-component tuple, whatever its components, is
    printed as ["X × Y"] with the [str] text of the components; every other
    entry (none, not a tuple, a tuple of another length) gives
    ["72 × 72"]. *)
Theorem C3_dpi_pair_or_default (img : PILImage) :
  (forall x y : value,
      img_info img !! "dpi" = Some (VTuple [x; y]) ->
      get_dpi img = Py.str x ++ " × " ++ Py.str y)
  /\ ((forall x y : value, img_info img !! "dpi" <> Some (VTuple [x; y])) ->
      get_dpi img = "72 × 72").
Proof.
  unfold get_dpi. split.
  - intros x y ->. reflexivity.
  - intros Hnot. destruct (img_info img !! "dpi") as [d |]; [| reflexivity].
    destruct d as [| | | items |]; try reflexivity.
    destruct items as [| x [| y [| z rest]]]; try reflexivity.
    by destruct (Hnot x y).
Qed.

Lemma C3_witness :
  (img_info img_int_dpi !! "dpi" = Some (VTuple [VInt 300; VInt 150])
   /\ get_dpi img_int_dpi = "300 × 150")
  /\ ((forall x y : value, img_info img_triple_dpi !! "dpi" <> Some (VTuple [x; y]))
      /\ get_dpi img_triple_dpi = "72 × 72").
Proof.
  split; (split; [try reflexivity; intros x y; vm_compute; discriminate |]).
  - apply (proj1 (C3_dpi_pair_or_default img_int_dpi) (VInt 300) (VInt 150)).
    reflexivity.
  - apply (proj2 (C3_dpi_pair_or_default img_triple_dpi)).
    intros x y. vm_compute. discriminate.
Defined.

(** ** Compression labels *)

(** C6. Whatever the content and the metadata of the image, the label is
    ["0%"] for the format tags PNG and BMP and ["LZW"] for GIF. *)
Theorem C6_fixed_compression_labels
    (w : World) (img : PILImage) (file_path : string) (actual_file_size : Z) :
  (img_format img = Some "PNG" \/ img_format img = Some "BMP" ->
   get_compression w img file_path actual_file_size = "0%")
  /\ (img_format img = Some "GIF" ->
      get_compression w img file_path actual_file_size = "LZW").
Proof.
  unfold get_compression. split.
  - intros [-> | ->]; reflexivity.
  - intros ->. reflexivity.
Qed.

Lemma C6_witness :
  (img_format img_rgb = Some "PNG"
   /\ get_compression silent_world img_rgb "a.png" 12 = "0%")
  /\ (img_format img_gif = Some "GIF"
      /\ get_compression silent_world img_gif "a.gif" 12 = "LZW").
Proof.
  split; (split; [reflexivity |]).
  - apply (proj1 (C6_fixed_compression_labels silent_world img_rgb "a.png" 12)).
    left. reflexivity.
  - apply (proj2 (C6_fixed_compression_labels silent_world img_gif "a.gif" 12)).
    reflexivity.
Defined.

(** ** The JPEG measurement *)

Lemma of_int_100 : of_int 100 = Ok float_100.
Proof. reflexivity. Qed.

(** The [try] block once the image to write is known and the writer has
    left the buffer at position [pos]. *)
Lemma reencode_and_compare_positive (w : World) (rgb : PILImage) (pos : N) (A : Z) :
  Image_save_tell w rgb "BMP" = Ok pos ->
  0 < Z.of_N pos -> Z.abs (Z.of_N pos - A) < 2 ^ 1023 ->
  reencode_and_compare w rgb A
  = Ok (format_f 1 (compression_percentage (Z.of_N pos) A) ++ "%").
Proof.
  intros Hsave Hpos Hrange. unfold reencode_and_compare.
  rewrite Hsave. cbn [mbind result_bind Py.bind].
  destruct (Z.ltb_spec 0 (Z.of_N pos)) as [_ | ?]; [| lia].
  rewrite int_truediv_in_range by lia.
  cbn [mbind result_bind Py.bind]. unfold mul_int. rewrite of_int_100.
  reflexivity.
Qed.

Lemma reencode_and_compare_zero (w : World) (rgb : PILImage) (A : Z) :
  Image_save_tell w rgb "BMP" = Ok 0%N ->
  reencode_and_compare w rgb A = Ok "N/A".
Proof. intros Hsave. unfold reencode_and_compare. rewrite Hsave. reflexivity. Qed.

(** C1. When the image (converted if its mode asks for it) is written as
    a BMP of [U] bytes, [U > 0], the estimator returns the percentage
    [((U - A) / U) * 100] printed with one decimal and a percent sign;
    when [U = 0] it returns ["N/A"].  The file size [A] and the buffer
    position [U] are machine integers (an [off_t] and a [Py_ssize_t]). *)
Theorem C1_jpeg_percentage_or_na
    (w : World) (img rgb : PILImage) (pos : N) (actual_file_size : Z) :
  rgb_img w img = Ok rgb ->
  Image_save_tell w rgb "BMP" = Ok pos ->
  (0 < Z.of_N pos -> Z.of_N pos < 2 ^ 63 -> 0 <= actual_file_size < 2 ^ 63 ->
   calculate_jpeg_compression_ratio w img actual_file_size
   = format_f 1 (compression_percentage (Z.of_N pos) actual_file_size) ++ "%")
  /\ (Z.of_N pos = 0 ->
      calculate_jpeg_compression_ratio w img actual_file_size = "N/A").
Proof.
  intros Hrgb Hsave. unfold calculate_jpeg_compression_ratio. rewrite Hrgb.
  cbn [mbind result_bind Py.bind]. split.
  - intros Hpos HU HA.
    rewrite (reencode_and_compare_positive w rgb pos); try assumption; [reflexivity |].
    assert (2 ^ 63 < 2 ^ 1023) by (apply Z.pow_lt_mono_r; lia). lia.
  - intros Hzero. assert (pos = 0%N) as -> by lia.
    by rewrite reencode_and_compare_zero.
Qed.

Lemma C1_witness :
  (rgb_img photo_world img_photo = Ok img_photo
   /\ Image_save_tell photo_world img_photo "BMP" = Ok 15054%N
   /\ calculate_jpeg_compression_ratio photo_world img_photo 5000
      = format_f 1 (compression_percentage 15054 5000) ++ "%")
  /\ (Image_save_tell empty_buffer_world img_photo "BMP" = Ok 0%N
      /\ calculate_jpeg_compression_ratio empty_buffer_world img_photo 5000 = "N/A").
Proof.
  split.
  - split; [reflexivity |]. split; [reflexivity |].
    apply (proj1 (C1_jpeg_percentage_or_na photo_world img_photo img_photo 15054%N 5000
                    eq_refl eq_refl)).
    + reflexivity.
    + reflexivity.
    + split; [discriminate | reflexivity].
  - split; [reflexivity |].
    apply (proj2 (C1_jpeg_percentage_or_na empty_buffer_world img_photo img_photo 0%N 5000
                    eq_refl eq_refl)).
    reflexivity.
Defined.

Example photo_percentage :
  calculate_jpeg_compression_ratio photo_world img_photo 5000 = "66.8%".
Proof. vm_compute. reflexivity. Qed.

(** *** The percentage against the exact ratio *)

Lemma Rabs_le_bounds (a b : R) : (Rabs a <= b)%R -> (- b <= a <= b)%R.
Proof. unfold Rabs. destruct (Rcase_abs a); lra. Qed.

(** The three roundings together: quotient, product, decimal digits. *)
Lemma three_roundings (x q p uq up t : R) :
  (0 < x <= 1)%R ->
  (Rabs (q - x) <= uq / 2)%R -> (4503599627370496 * uq <= q)%R ->
  (Rabs (p - 100 * q) <= up / 2)%R -> (4503599627370496 * up <= p)%R ->
  (Rabs (t - 10 * p) <= 1 / 2)%R ->
  (Rabs (t / 10 - 100 * x) <= 5 / 100 + 1 / 10 ^ 13)%R.
Proof.
  intros Hx Hq Hmq Hp Hmp Ht.
  apply Rabs_le_bounds in Hq, Hp, Ht. apply Rabs_le. lra.
Qed.

Lemma F2R_lower (m : positive) (e : Z) :
  2 ^ 52 <= Zpos m -> (4503599627370496 * powerRZ 2 e <= F2R m e)%R.
Proof.
  intros Hm. unfold F2R. apply IZR_le in Hm. change (2 ^ 52) with 4503599627370496 in Hm.
  pose proof (powerRZ_2_pos e). nra.
Qed.

(** For a JPEG file no larger than its BMP form, the percentage printed
    differs from the exact ratio [100 * (U - A) / U] by at most half a
    unit of the printed decimal, plus the error of the two float
    roundings, which stays below [10^-13]. *)
Theorem jpeg_percentage_accuracy
    (w : World) (img rgb : PILImage) (pos : N) (actual_file_size : Z) :
  rgb_img w img = Ok rgb ->
  Image_save_tell w rgb "BMP" = Ok pos ->
  0 < Z.of_N pos < 2 ^ 63 ->
  0 <= actual_file_size <= Z.of_N pos ->
  exists tenths : Z,
    0 <= tenths <= 1000
    /\ calculate_jpeg_compression_ratio w img actual_file_size
       = decimal_text 1 tenths ++ "%"
    /\ (Rabs (IZR tenths / 10
              - 100 * IZR (Z.of_N pos - actual_file_size) / IZR (Z.of_N pos))
        <= 5 / 100 + 1 / 10 ^ 13)%R.
Proof.
  intros Hrgb Hsave HU HA.
  set (U := Z.of_N pos) in *. set (A := actual_file_size) in *.
  assert (Hlabel : calculate_jpeg_compression_ratio w img A
                   = format_f 1 (compression_percentage U A) ++ "%").
  { unfold calculate_jpeg_compression_ratio. rewrite Hrgb.
    cbn [mbind result_bind Py.bind].
    rewrite (reencode_and_compare_positive w rgb pos A Hsave); [reflexivity | lia |].
    fold U. assert (2 ^ 63 < 2 ^ 1023) by (apply Z.pow_lt_mono_r; lia). lia. }
  assert (HUR : (0 < IZR U)%R) by (apply IZR_lt; lia).
  enough (Hmain : exists tenths : Z,
             format_f 1 (compression_percentage U A) = decimal_text 1 tenths
             /\ (Rabs (IZR tenths / 10 - 100 * IZR (U - A) / IZR U)
                 <= 5 / 100 + 1 / 10 ^ 13)%R).
  { destruct Hmain as (tenths & Htext & Hnear). exists tenths.
    split; [| split; [by rewrite Hlabel, Htext | exact Hnear]].
    apply Rabs_le_bounds in Hnear.
    assert (Hratio : (0 <= 100 * IZR (U - A) / IZR U <= 100)%R).
    { assert (0 <= IZR (U - A) <= IZR U)%R by (split; apply IZR_le; lia).
      split.
      - apply Rmult_le_pos; [lra |]. left. by apply Rinv_0_lt_compat.
      - apply (Rmult_le_reg_r (IZR U)); [assumption |].
        unfold Rdiv. rewrite Rmult_assoc, Rinv_l by lra. lra. }
    assert (Hlo : (IZR (-1) < IZR tenths)%R) by lra.
    assert (Hhi : (IZR tenths < IZR 1001)%R) by lra.
    apply lt_IZR in Hlo, Hhi. lia. }
  unfold compression_percentage.
  destruct (Z.eq_dec A U) as [-> | Hne].
  - (* nothing saved: the percentage is zero *)
    exists 0. rewrite Z.sub_diag.
    destruct U as [| pu | pu]; try lia.
    split; [reflexivity |].
    replace (IZR 0 / 10 - 100 * IZR 0 / IZR (Zpos pu))%R with 0%R by (field; lra).
    rewrite Rabs_R0. lra.
  - assert (2 ^ 63 < 2 ^ 64) by (apply Z.pow_lt_mono_r; lia).
    destruct (U - A) as [| pa | pa] eqn:Hsaved; try lia.
    destruct (SFdiv_accuracy false pa U ltac:(lia) ltac:(lia))
      as (mf & ef & Hdiv & Hmf & Hef & Hneg & Hq).
    destruct (SFmul_100_accuracy false mf ef Hmf Hef)
      as (mp & ep & Hmul & Hmp & Hep & Hp).
    simpl exact at 1. rewrite Hdiv, Hmul.
    exists (scaled 1 mp ep). split; [reflexivity |].
    specialize (Hneg ltac:(lia)).
    pose proof (scaled_accuracy mp ep ltac:(lia)) as Ht.
    replace (100 * IZR (Zpos pa) / IZR U)%R with (100 * (IZR (Zpos pa) / IZR U))%R
      by (field; lra).
    apply (three_roundings (IZR (Zpos pa) / IZR U) (F2R mf ef) (F2R mp ep)
             (powerRZ 2 ef) (powerRZ 2 ep) (IZR (scaled 1 mp ep))).
    + assert (0 < IZR (Zpos pa) <= IZR U)%R
        by (split; [apply IZR_lt | apply IZR_le]; lia).
      split.
      * apply Rdiv_lt_0_compat; lra.
      * apply (Rmult_le_reg_r (IZR U)); [assumption |].
        unfold Rdiv. rewrite Rmult_assoc, Rinv_l by lra. lra.
    + exact Hq.
    + apply F2R_lower. lia.
    + exact Hp.
    + apply F2R_lower. lia.
    + exact Ht.
Qed.

Lemma jpeg_percentage_accuracy_witness :
  exists tenths : Z,
    0 <= tenths <= 1000
    /\ calculate_jpeg_compression_ratio photo_world img_photo 5000
       = decimal_text 1 tenths ++ "%"
    /\ (Rabs (IZR tenths / 10 - 100 * IZR (Z.of_N 15054 - 5000) / IZR (Z.of_N 15054))
        <= 5 / 100 + 1 / 10 ^ 13)%R.
Proof.
  apply (jpeg_percentage_accuracy photo_world img_photo img_photo 15054%N 5000).
  - reflexivity.
  - reflexivity.
  - split; reflexivity.
  - split; discriminate.
Defined.

(** C10. The ratio is not clamped: for a JPEG file larger than its BMP
    form the label is a negative percentage. *)
Theorem C10_negative_percentage :
  exists (w : World) (img : PILImage) (actual_file_size : Z) (pos : N),
    img_format img = Some "JPEG"
    /\ rgb_img w img = Ok img
    /\ Image_save_tell w img "BMP" = Ok pos
    /\ Z.of_N pos < actual_file_size
    /\ calculate_jpeg_compression_ratio w img actual_file_size = "-12.5%"
    /\ get_compression w img "tiny.jpg" actual_file_size = "-12.5%".
Proof.
  exists tiny_world, img_tiny_jpeg, 1217, 1082%N.
  repeat split; vm_compute; reflexivity.
Qed.

(** More generally, the label of a file larger than its BMP form always
    carries the minus sign. *)
Theorem jpeg_percentage_negative
    (w : World) (img rgb : PILImage) (pos : N) (actual_file_size : Z) :
  rgb_img w img = Ok rgb ->
  Image_save_tell w rgb "BMP" = Ok pos ->
  0 < Z.of_N pos ->
  Z.of_N pos < actual_file_size < 2 ^ 63 ->
  exists tenths : Z,
    0 <= tenths
    /\ calculate_jpeg_compression_ratio w img actual_file_size
       = "-" ++ decimal_text 1 tenths ++ "%".
Proof.
  intros Hrgb Hsave HU HA.
  set (U := Z.of_N pos) in *. set (A := actual_file_size) in *.
  assert (H63 : 2 ^ 63 < 2 ^ 64) by (apply Z.pow_lt_mono_r; lia).
  assert (H1023 : 2 ^ 63 < 2 ^ 1023) by (apply Z.pow_lt_mono_r; lia).
  unfold calculate_jpeg_compression_ratio. rewrite Hrgb.
  cbn [mbind result_bind Py.bind].
  rewrite (reencode_and_compare_positive w rgb pos A Hsave) by (fold U; lia).
  fold U. unfold compression_percentage.
  destruct (U - A) as [| pa | pa] eqn:Hlost; try lia.
  destruct (SFdiv_accuracy true pa U ltac:(lia) ltac:(lia))
    as (mf & ef & Hdiv & Hmf & Hef & _ & _).
  destruct (SFmul_100_accuracy true mf ef Hmf Hef) as (mp & ep & Hmul & _).
  simpl exact at 1. rewrite Hdiv, Hmul.
  exists (scaled 1 mp ep). split; [apply scaled_nonneg | reflexivity].
Qed.

Lemma jpeg_percentage_negative_witness :
  exists tenths : Z,
    0 <= tenths
    /\ calculate_jpeg_compression_ratio tiny_world img_tiny_jpeg 1217
       = "-" ++ decimal_text 1 tenths ++ "%".
Proof.
  apply (jpeg_percentage_negative tiny_world img_tiny_jpeg img_tiny_jpeg 1082%N 1217).
  - reflexivity.
  - reflexivity.
  - reflexivity.
  - split; reflexivity.
Defined.





(** ** Records *)

Lemma file_size_in_range (A : Z) :
  0 <= A < 2 ^ 63 ->
  (kb ← int_truediv A 1024; truediv_int kb 1024) = Ok (megabytes A).
Proof.
  intros HA.
  assert (2 ^ 63 < 2 ^ 1023) by (apply Z.pow_lt_mono_r; lia).
  rewrite int_truediv_in_range by lia. reflexivity.
Qed.

(** The two ways out of [get_image_info]. *)
Lemma get_image_info_cases (w : World) (file_path : string) :
  (exists (img : PILImage) (A : Z) (mb : spec_float),
      Image_open w file_path = Ok img
      /\ os_stat_st_size w file_path = Ok A
      /\ (kb ← int_truediv A 1024; truediv_int kb 1024) = Ok mb
      /\ get_image_info w file_path = info_record w file_path img A mb)
  \/ (exists e : string, get_image_info w file_path = error_record file_path e).
Proof.
  unfold get_image_info.
  destruct (Image_open w file_path) as [img | e]; [| right; by exists e].
  destruct (os_stat_st_size w file_path) as [A | e]; [| right; by exists e].
  cbn [mbind result_bind Py.bind].
  destruct (int_truediv A 1024) as [kb | e] eqn:Hkb; [| right; by exists e].
  cbn [mbind result_bind Py.bind].
  destruct (truediv_int kb 1024) as [mb | e] eqn:Hmb; [| right; by exists e].
  left. exists img, A, mb. rewrite Hkb. cbn [mbind result_bind Py.bind].
  by rewrite Hmb.
Qed.

Lemma get_image_info_open_raises (w : World) (file_path e : string) :
  Image_open w file_path = Raise e ->
  get_image_info w file_path = error_record file_path e.
Proof. intros Hopen. unfold get_image_info. by rewrite Hopen. Qed.

Lemma get_image_info_opened (w : World) (file_path : string) (img : PILImage) (A : Z) :
  Image_open w file_path = Ok img ->
  os_stat_st_size w file_path = Ok A ->
  0 <= A < 2 ^ 63 ->
  get_image_info w file_path = info_record w file_path img A (megabytes A).
Proof.
  intros Hopen Hstat HA. unfold get_image_info. rewrite Hopen, Hstat.
  cbn [mbind result_bind Py.bind].
  pose proof (file_size_in_range A HA) as Hmb.
  destruct (int_truediv A 1024) as [kb | e]; [| discriminate].
  cbn [mbind result_bind Py.bind] in Hmb |- *. by rewrite Hmb.
Qed.



Lemma error_record_fully_failed (file_path e : string) :
  fully_failed (error_record file_path e).
Proof.
  split; [by exists e |].
  repeat (apply Forall_cons; split; [reflexivity |]). apply Forall_nil_2.
Qed.

Lemma process_files_map (w : World) (image_files : list string) :
  process_files w image_files = List.map (get_image_info w) image_files.
Proof.
  unfold process_files.
  enough (Hgen : forall acc : list (gmap string value),
             fold_left
               (fun processed_data file_path =>
                  (processed_data ++ [get_image_info w file_path])%list)
               image_files acc
             = (acc ++ List.map (get_image_info w) image_files)%list)
    by apply (Hgen []).
  induction image_files as [| p rest IH]; intros acc; simpl.
  - by rewrite app_nil_r.
  - rewrite IH, <- app_assoc. reflexivity.
Qed.

(** C2. The loop gives one record per path, in the order of the paths:
    the record at index [i] is the one built for the path at index [i]
    and names that path.  A path that cannot be opened gets a record with
    [error] set and the six derived fields at the sentinel, and the
    records before and after it are what they would be without it. *)
Theorem C2_one_record_per_path (w : World) (image_files : list string) :
  List.length (process_files w image_files) = List.length image_files
  /\ (forall (i : nat) (file_path : string),
         image_files !! i = Some file_path ->
         process_files w image_files !! i = Some (get_image_info w file_path)
         /\ get_image_info w file_path !! "filepath" = Some (VStr file_path))
  /\ (forall file_path e : string,
         Image_open w file_path = Raise e ->
         get_image_info w file_path !! "error" = Some (VStr e)
         /\ Forall (fun key => get_image_info w file_path !! key = Some (VStr "Error"))
                   ["format"; "size_str"; "dpi"; "color_depth"; "compression";
                    "file_size_mb"])
  /\ (forall (before after : list string) (file_path : string),
         image_files = (before ++ file_path :: after)%list ->
         process_files w image_files
         = (process_files w before ++ get_image_info w file_path
              :: process_files w after)%list).
Proof.
  rewrite process_files_map. split; [| split; [| split]].
  - apply length_map.
  - intros i file_path Hi. split.
    + change (List.map (get_image_info w) image_files)
        with (get_image_info w <$> image_files).
      by rewrite list_lookup_fmap, Hi.
    + destruct (get_image_info_cases w file_path)
        as [(img & A & mb & _ & _ & _ & ->) | [e ->]]; reflexivity.
  - intros file_path e Hopen. rewrite (get_image_info_open_raises _ _ _ Hopen).
    split; [reflexivity |]. apply (error_record_fully_failed file_path e).
  - intros before after file_path ->.
    rewrite !process_files_map, map_app. reflexivity.
Qed.

Lemma C2_witness :
  List.length (process_files mixed_world mixed_paths) = List.length mixed_paths
  /\ (mixed_paths !! 1%nat = Some "pics/bad.jpg"
      /\ process_files mixed_world mixed_paths !! 1%nat
         = Some (get_image_info mixed_world "pics/bad.jpg"))
  /\ (Image_open mixed_world "pics/bad.jpg"
      = Raise "cannot identify image file 'pics/bad.jpg'"
      /\ get_image_info mixed_world "pics/bad.jpg" !! "error"
         = Some (VStr "cannot identify image file 'pics/bad.jpg'"))
  /\ (mixed_paths = (["pics/a.png"] ++ "pics/bad.jpg" :: ["pics/c.png"])%list
      /\ process_files mixed_world mixed_paths
         = (process_files mixed_world ["pics/a.png"]
              ++ get_image_info mixed_world "pics/bad.jpg"
              :: process_files mixed_world ["pics/c.png"])%list).
Proof.
  pose proof (C2_one_record_per_path mixed_world mixed_paths) as (Hlen & Hnth & Herr & Hsplit).
  split; [exact Hlen |].
  split; [split; [reflexivity | apply (Hnth 1%nat "pics/bad.jpg"); reflexivity] |].
  split; [split; [reflexivity | apply (Herr "pics/bad.jpg"); reflexivity] |].
  split; [reflexivity | apply Hsplit; reflexivity].
Defined.

Example mixed_records_status :
  List.map (fun r => r !! "format") (process_files mixed_world mixed_paths)
  = [Some (VStr "PNG"); Some (VStr "Error"); Some (VStr "PNG")].
Proof. vm_compute. reflexivity. Qed.

(** ** File size *)

(** C4, as stated, fails: the size on disk is known to the file system,
    yet the record of a file that cannot be opened carries the sentinel. *)
Lemma C4_size_not_reported_on_failure :
  os_stat_st_size bad_file_world "bad.jpg" = Ok 2048
  /\ get_image_info bad_file_world "bad.jpg" !! "file_size_mb" = Some (VStr "Error")
  /\ get_image_info bad_file_world "bad.jpg" !! "file_size_mb"
     <> Some (VStr (format_f 2 (megabytes 2048))).
Proof.
  split; [reflexivity |]. split; [reflexivity |]. vm_compute. discriminate.
Qed.

(** C4, amended. The size is read after the file has been opened: the
    record of an opened file reports the size on disk in megabytes with
    two decimals, and the record of a file that cannot be opened reports
    the sentinel, whatever the file system would answer. *)
Theorem C4_file_size_follows_open (w : World) (file_path : string) :
  (forall (img : PILImage) (A : Z),
      Image_open w file_path = Ok img ->
      os_stat_st_size w file_path = Ok A ->
      0 <= A < 2 ^ 63 ->
      get_image_info w file_path !! "file_size_mb" = Some (VStr (format_f 2 (megabytes A))))
  /\ (forall e : string,
         Image_open w file_path = Raise e ->
         get_image_info w file_path !! "file_size_mb" = Some (VStr "Error")).
Proof.
  split.
  - intros img A Hopen Hstat HA.
    by rewrite (get_image_info_opened w file_path img A Hopen Hstat HA).
  - intros e Hopen. by rewrite (get_image_info_open_raises w file_path e Hopen).
Qed.

Lemma C4_witness :
  (Image_open mixed_world "pics/a.png" = Ok img_rgb
   /\ os_stat_st_size mixed_world "pics/a.png" = Ok 15054
   /\ get_image_info mixed_world "pics/a.png" !! "file_size_mb"
      = Some (VStr (format_f 2 (megabytes 15054))))
  /\ (Image_open bad_file_world "bad.jpg" = Raise "cannot identify image file 'bad.jpg'"
      /\ get_image_info bad_file_world "bad.jpg" !! "file_size_mb" = Some (VStr "Error")).
Proof.
  split.
  - split; [reflexivity |]. split; [reflexivity |].
    apply (proj1 (C4_file_size_follows_open mixed_world "pics/a.png") img_rgb 15054).
    + reflexivity.
    + reflexivity.
    + split; [discriminate | reflexivity].
  - split; [reflexivity |].
    apply (proj2 (C4_file_size_follows_open bad_file_world "bad.jpg")
             "cannot identify image file 'bad.jpg'").
    reflexivity.
Defined.

Example megabytes_text : format_f 2 (megabytes 15054) = "0.01".
Proof. vm_compute. reflexivity. Qed.

(** ** All or nothing *)



(** The records kept in the session after a scan that found files. *)
Lemma scan_and_process_folder_records (w : World) (folder : string) (st : SessionState) :
  scan_folder w folder <> [] ->
  processed_files (scan_and_process_folder w folder st)
  = List.map (get_image_info w) (scan_folder w folder).
Proof.
  intros Hfound. unfold scan_and_process_folder.
  destruct (scan_folder w folder) as [| p rest] eqn:Hscan; [contradiction |].
  simpl. apply process_files_map.
Qed.

(** A scan that finds nothing returns before the loop: the session keeps
    what it held. *)
Lemma scan_and_process_folder_nothing_found
    (w : World) (folder : string) (st : SessionState) :
  scan_folder w folder = [] -> scan_and_process_folder w folder st = st.
Proof. intros Hnone. unfold scan_and_process_folder. by rewrite Hnone. Qed.

(** ** The scanner *)

Lemma is_image_file_recognized (file : string) :
  is_image_file file = true ->
  Py.lower (snd (posixpath.splitext file)) ∈ recognized_extensions.
Proof.
  unfold is_image_file. intros Hfile. apply bool_decide_eq_true_1 in Hfile.
  unfold recognized_extensions.
  rewrite !elem_of_union, !elem_of_singleton in Hfile.
  rewrite !elem_of_cons. tauto.
Qed.

(** What the inner loop adds to [image_files]. *)
Lemma scan_files_spec (root : string) (files : list string) :
  forall (image_files : list string) (path : string),
    path ∈ scan_files root files image_files ->
    path ∈ image_files
    \/ exists file : string,
         file ∈ files /\ is_image_file file = true /\ path = posixpath.join root file.
Proof.
  unfold scan_files.
  induction files as [| file files IH]; intros image_files path Hin; simpl in Hin.
  - by left.
  - apply IH in Hin as [Hin | (file' & Hfile' & Himg & ->)].
    + destruct (is_image_file file) eqn:Himg.
      * apply elem_of_app in Hin as [Hin | Hin]; [by left |].
        apply list_elem_of_singleton in Hin as ->.
        right. exists file. split; [apply list_elem_of_here | by split].
      * by left.
    + right. exists file'. split; [by apply list_elem_of_further | by split].
Qed.

Lemma scan_walk_spec (walk : list (string * list string * list string)) :
  forall (image_files : list string) (path : string),
    path ∈ scan_walk walk image_files ->
    path ∈ image_files
    \/ exists (root : string) (dirs files : list string) (file : string),
         (root, dirs, files) ∈ walk /\ file ∈ files
         /\ is_image_file file = true /\ path = posixpath.join root file.
Proof.
  induction walk as [| [[root dirs] files] walk IH]; intros image_files path Hin.
  - by left.
  - simpl in Hin.
    assert (Hstep : path ∈ scan_files root files image_files ->
                    path ∈ image_files
                    \/ exists (root0 : string) (dirs0 files0 : list string) (file : string),
                         (root0, dirs0, files0) ∈ (root, dirs, files) :: walk
                         /\ file ∈ files0
                         /\ is_image_file file = true
                         /\ path = posixpath.join root0 file).
    { intros Hhere. apply scan_files_spec in Hhere as [? | (file & ? & ? & ?)]; [by left |].
      right. exists root, dirs, files, file. split; [apply list_elem_of_here | done]. }
    destruct (100000 <=? Z.of_nat (List.length (scan_files root files image_files))).
    + by apply Hstep.
    + apply IH in Hin as [Hin | (root0 & dirs0 & files0 & file & Hw & ? & ? & ?)].
      * by apply Hstep.
      * right. exists root0, dirs0, files0, file.
        split; [by apply list_elem_of_further | done].
Qed.

(** C8. The scanner returns at most 100000 paths, and every path it
    returns has, case aside, one of the eight recognized extensions. *)
Theorem C8_scan_cap_and_extensions (w : World) (folder : string) :
  Z.of_nat (List.length (scan_folder w folder)) <= 100000
  /\ (Forall (fun entry => Forall is_entry_name (snd entry)) (os_walk w folder) ->
      Forall has_recognized_extension (scan_folder w folder)).
Proof.
  unfold scan_folder. split.
  - rewrite length_firstn. lia.
  - intros Hnames. apply Forall_forall. intros path Hin.
    apply subseteq_take in Hin.
    apply scan_walk_spec in Hin
      as [Hnil | (root & dirs & files & file & Hw & Hfile & Himg & ->)].
    + by apply elem_of_nil in Hnil.
    + unfold has_recognized_extension.
      rewrite Forall_forall in Hnames. specialize (Hnames _ Hw). simpl in Hnames.
      rewrite Forall_forall in Hnames.
      rewrite splitext_join by (by apply Hnames).
      by apply is_image_file_recognized.
Qed.

Lemma C8_witness :
  Forall (fun entry => Forall is_entry_name (snd entry)) (os_walk tree_world "pics")
  /\ Z.of_nat (List.length (scan_folder tree_world "pics")) <= 100000
  /\ Forall has_recognized_extension (scan_folder tree_world "pics").
Proof.
  assert (Hnames : Forall (fun entry => Forall is_entry_name (snd entry))
                          (os_walk tree_world "pics")).
  { repeat (apply Forall_cons; split; [repeat (apply Forall_cons; split; [reflexivity |]);
                                       apply Forall_nil_2 |]).
    apply Forall_nil_2. }
  split; [exact Hnames |].
  split.
  - apply (proj1 (C8_scan_cap_and_extensions tree_world "pics")).
  - apply (proj2 (C8_scan_cap_and_extensions tree_world "pics")). exact Hnames.
Defined.

Example scan_tree :
  scan_folder tree_world "pics"
  = ["pics/a.JPG"; "pics/sub.dir/b.tiff"; "pics/sub.dir/c.Png"].
Proof. vm_compute. reflexivity. Qed.

(** ** The scanner: what it returns *)

Lemma scan_files_app (root : string) (files : list string) :
  forall image_files : list string,
    scan_files root files image_files
    = (image_files
       ++ List.map (posixpath.join root) (List.filter is_image_file files))%list.
Proof.
  unfold scan_files. induction files as [| file files IH]; intros image_files; simpl.
  - by rewrite app_nil_r.
  - rewrite IH. destruct (is_image_file file); [| reflexivity].
    simpl. by rewrite <- app_assoc.
Qed.

(** The walk stops early only once the cap is reached, and what it has
    collected then is a prefix of what the whole traversal holds. *)
Lemma scan_walk_prefix (walk : list (string * list string * list string)) :
  forall image_files : list string,
    exists rest : list string,
      (image_files ++ image_paths walk)%list
      = (scan_walk walk image_files ++ rest)%list
      /\ (rest = [] \/ 100000 <= Z.of_nat (List.length (scan_walk walk image_files))).
Proof.
  induction walk as [| [[root dirs] files] walk IH]; intros image_files.
  - exists []. split; [reflexivity | by left].
  - cbn [scan_walk image_paths List.flat_map fst snd]. fold (image_paths walk).
    rewrite scan_files_app.
    set (found := (image_files
                   ++ List.map (posixpath.join root) (List.filter is_image_file files))%list).
    destruct (Z.leb_spec 100000 (Z.of_nat (List.length found))) as [Hfull | Hroom].
    + exists (image_paths walk). split; [| by right].
      unfold found. by rewrite <- app_assoc.
    + destruct (IH found) as (rest & Heq & Hrest). exists rest.
      split; [| exact Hrest]. rewrite <- Heq. unfold found. by rewrite <- app_assoc.
Qed.

(** The scan returns the first 100000 image files of the traversal, in
    traversal order: all of them when there are fewer, and the [break]
    never changes which ones. *)
Theorem scan_folder_first_image_paths (w : World) (folder : string) :
  scan_folder w folder = firstn (Z.to_nat 100000) (image_paths (os_walk w folder)).
Proof.
  unfold scan_folder.
  destruct (scan_walk_prefix (os_walk w folder) []) as (rest & Heq & Hrest).
  simpl in Heq. rewrite Heq.
  destruct Hrest as [-> | Hfull]; [by rewrite app_nil_r |].
  rewrite firstn_app.
  replace (Z.to_nat 100000 - List.length (scan_walk (os_walk w folder) []))%nat
    with 0%nat by lia.
  by rewrite firstn_O, app_nil_r.
Qed.

(** A name whose only dot is its first character ([.png], [.bashrc]) has
    no extension for [splitext]. *)
Lemma is_image_file_dot_name (s : string) :
  posixpath.rfind "." s = -1 -> is_image_file (String "." s) = false.
Proof.
  intros Hdot. unfold is_image_file, posixpath.splitext.
  assert (Hd : posixpath.rfind "." (String "." s) = 0).
  { cbn [posixpath.rfind]. rewrite Hdot. reflexivity. }
  rewrite Hd.
  pose proof (rfind_bounds "/" (String "." s)) as Hsep.
  destruct (Z.ltb_spec (posixpath.rfind "/" (String "." s)) 0) as [Hlt | Hge];
    [| reflexivity].
  replace (posixpath.rfind "/" (String "." s)) with (-1) by lia.
  reflexivity.
Qed.

(** Such a file is invisible to the scan: a directory gives the same
    paths with it and without it. *)
Theorem scan_files_skips_dot_names
    (root s : string) (before after image_files : list string) :
  posixpath.rfind "." s = -1 ->
  scan_files root (before ++ String "." s :: after) image_files
  = scan_files root (before ++ after) image_files.
Proof.
  intros Hdot. rewrite !scan_files_app, !List.filter_app. cbn [List.filter].
  by rewrite (is_image_file_dot_name s Hdot).
Qed.

Lemma scan_files_skips_dot_names_witness :
  posixpath.rfind "." "png" = -1
  /\ scan_files "pics" (["a.JPG"] ++ ".png" :: ["b.gif"]) []
     = scan_files "pics" (["a.JPG"] ++ ["b.gif"]) [].
Proof.
  split; [reflexivity |].
  apply (scan_files_skips_dot_names "pics" "png" ["a.JPG"] ["b.gif"] []).
  reflexivity.
Defined.

(** ** Records: the file name *)

Lemma basename_prefixed (prefix file : string) :
  prefix = EmptyString \/ posixpath.endswith "/" prefix = true ->
  is_entry_name file ->
  posixpath.basename (prefix ++ file) = file.
Proof.
  intros Hprefix Hname. unfold is_entry_name in Hname. unfold posixpath.basename.
  rewrite rfind_app, Hname. change (0 <=? -1) with false. cbv iota.
  assert (Hsep : posixpath.rfind "/" prefix = Z.of_nat (String.length prefix) - 1).
  { destruct Hprefix as [-> | Hend]; [reflexivity | by apply rfind_endswith]. }
  rewrite Hsep.
  replace (Z.to_nat (Z.of_nat (String.length prefix) - 1 + 1))
    with (String.length prefix + 0)%nat by lia.
  by rewrite drop_app_length.
Qed.

Lemma basename_join (root file : string) :
  is_entry_name file -> posixpath.basename (posixpath.join root file) = file.
Proof.
  intros Hname. unfold posixpath.join. rewrite (startswith_rfind "/" file Hname).
  destruct (String.eqb_spec root EmptyString) as [-> | Hroot]; simpl orb.
  - apply (basename_prefixed EmptyString); [by left | assumption].
  - destruct (posixpath.endswith "/" root) eqn:Hend.
    + apply basename_prefixed; [by right | assumption].
    + rewrite app_assoc_string.
      apply basename_prefixed; [right; apply endswith_app_sep | assumption].
Qed.

(** The record of a scanned file, successful or failed, is named after the
    directory entry, without the directories, and keeps the whole path. *)
Theorem record_named_after_entry (w : World) (root file : string) :
  is_entry_name file ->
  get_image_info w (posixpath.join root file) !! "filename" = Some (VStr file)
  /\ get_image_info w (posixpath.join root file) !! "filepath"
     = Some (VStr (posixpath.join root file)).
Proof.
  intros Hname.
  destruct (get_image_info_cases w (posixpath.join root file))
    as [(img & A & mb & _ & _ & _ & ->) | [e ->]].
  - split; [| reflexivity].
    change (info_record w (posixpath.join root file) img A mb !! "filename")
      with (Some (VStr (posixpath.basename (posixpath.join root file)))).
    by rewrite basename_join.
  - split; [| reflexivity].
    change (error_record (posixpath.join root file) e !! "filename")
      with (Some (VStr (posixpath.basename (posixpath.join root file)))).
    by rewrite basename_join.
Qed.

Lemma record_named_after_entry_witness :
  is_entry_name "bad.jpg"
  /\ get_image_info mixed_world (posixpath.join "pics" "bad.jpg") !! "filename"
     = Some (VStr "bad.jpg").
Proof.
  split; [reflexivity |].
  apply (proj1 (record_named_after_entry mixed_world "pics" "bad.jpg" eq_refl)).
Defined.

(** ** Records: which step failed *)

(** The record is the successful one exactly when the file could be opened
    and its size read; a file that opens but whose size cannot be read
    (it vanished, say) gets the failure record with that error. *)
Theorem record_error_reports_first_failure (w : World) (file_path : string) :
  (forall A : Z, os_stat_st_size w file_path = Ok A -> 0 <= A < 2 ^ 63) ->
  (get_image_info w file_path !! "error" = Some VNone
   <-> exists (img : PILImage) (A : Z),
         Image_open w file_path = Ok img /\ os_stat_st_size w file_path = Ok A)
  /\ (forall (img : PILImage) (e : string),
         Image_open w file_path = Ok img ->
         os_stat_st_size w file_path = Raise e ->
         get_image_info w file_path = error_record file_path e).
Proof.
  intros Hrange. split; [split |].
  - intros Herror. unfold get_image_info in Herror.
    destruct (Image_open w file_path) as [img | e]; [| discriminate].
    destruct (os_stat_st_size w file_path) as [A | e]; [| discriminate].
    by exists img, A.
  - intros (img & A & Hopen & Hstat).
    by rewrite (get_image_info_opened w file_path img A Hopen Hstat (Hrange A Hstat)).
  - intros img e Hopen Hstat. unfold get_image_info. by rewrite Hopen, Hstat.
Qed.

Lemma record_error_reports_first_failure_witness :
  (forall A : Z, os_stat_st_size mixed_world "pics/a.png" = Ok A -> 0 <= A < 2 ^ 63)
  /\ (get_image_info mixed_world "pics/a.png" !! "error" = Some VNone
      <-> exists (img : PILImage) (A : Z),
            Image_open mixed_world "pics/a.png" = Ok img
            /\ os_stat_st_size mixed_world "pics/a.png" = Ok A).
Proof.
  assert (Hrange : forall A : Z,
             os_stat_st_size mixed_world "pics/a.png" = Ok A -> 0 <= A < 2 ^ 63).
  { intros A [= <-]. lia. }
  split; [exact Hrange |].
  apply (proj1 (record_error_reports_first_failure mixed_world "pics/a.png" Hrange)).
Defined.

(** ** Compression labels read from the metadata *)

Lemma lower_char_idem (a : ascii) : Py.lower_char (Py.lower_char a) = Py.lower_char a.
Proof. destruct a as [[] [] [] [] [] [] [] []]; reflexivity. Qed.

Lemma upper_lower_char (a : ascii) : Py.upper_char (Py.lower_char a) = Py.upper_char a.
Proof. destruct a as [[] [] [] [] [] [] [] []]; reflexivity. Qed.

Lemma lower_idem (s : string) : Py.lower (Py.lower s) = Py.lower s.
Proof.
  induction s as [| a s IH]; [reflexivity |].
  cbn [Py.lower]. by rewrite lower_char_idem, IH.
Qed.

Lemma capitalize_lower (s : string) : Py.capitalize (Py.lower s) = Py.capitalize s.
Proof.
  destruct s as [| a s]; [reflexivity |].
  cbn [Py.lower Py.capitalize]. by rewrite upper_lower_char, lower_idem.
Qed.

(** The label of a TIFF file does not depend on the case in which its
    compression tag is written. *)
Theorem tiff_label_ignores_case
    (w : World) (img1 img2 : PILImage) (path1 path2 : string) (A1 A2 : Z)
    (tag1 tag2 : string) :
  img_format img1 = Some "TIFF" -> img_format img2 = Some "TIFF" ->
  img_info img1 !! "compression" = Some (VStr tag1) ->
  img_info img2 !! "compression" = Some (VStr tag2) ->
  is_ascii tag1 = true -> is_ascii tag2 = true ->
  Py.lower tag1 = Py.lower tag2 ->
  get_compression w img1 path1 A1 = get_compression w img2 path2 A2.
Proof.
  intros Hf1 Hf2 Ht1 Ht2 _ _ Hsame. unfold get_compression.
  rewrite Hf1, Hf2, Ht1, Ht2. cbn [default Py.str].
  change (bool_decide (Some "TIFF" = Some "JPEG")) with false.
  change (bool_decide (Some "TIFF" = Some "PNG")) with false.
  change (bool_decide (Some "TIFF" = Some "BMP")) with false.
  change (bool_decide (Some "TIFF" = Some "TIFF")) with true.
  cbv iota. change (Datatypes.id ?v) with v. cbn [Py.str].
  rewrite <- (capitalize_lower tag1), <- (capitalize_lower tag2). by rewrite Hsame.
Qed.

Lemma tiff_label_ignores_case_witness :
  get_compression silent_world
    {| img_format := Some "TIFF"; img_mode := "RGB"; img_size := (1, 1);
       img_info := {[ "compression" := VStr "TIFF_LZW" ]} |} "a.tif" 10
  = get_compression silent_world
      {| img_format := Some "TIFF"; img_mode := "L"; img_size := (2, 2);
         img_info := {[ "compression" := VStr "tiff_lzw" ]} |} "b.tif" 20.
Proof.
  apply (tiff_label_ignores_case silent_world _ _ "a.tif" "b.tif" 10 20
           "TIFF_LZW" "tiff_lzw"); reflexivity.
Defined.

(** Without a compression entry in the metadata a TIFF file is labelled
    "None", and a file of a format outside the five named ones "Unknown". *)
Theorem compression_label_without_tag
    (w : World) (img : PILImage) (file_path : string) (actual_file_size : Z) :
  img_info img !! "compression" = None ->
  (img_format img = Some "TIFF" ->
   get_compression w img file_path actual_file_size = "None")
  /\ (img_format img ∉ [Some "JPEG"; Some "PNG"; Some "BMP"; Some "TIFF"; Some "GIF"] ->
      get_compression w img file_path actual_file_size = "Unknown").
Proof.
  intros Hnone. split.
  - intros Hf. unfold get_compression. rewrite Hf, Hnone. reflexivity.
  - intros Hf. unfold get_compression. rewrite Hnone.
    repeat (rewrite bool_decide_eq_false_2;
            [| intros Heq; apply Hf; rewrite Heq;
               by apply (bool_decide_unpack _)]).
    reflexivity.
Qed.

Lemma compression_label_without_tag_witness :
  get_compression silent_world
    {| img_format := Some "PCX"; img_mode := "P"; img_size := (4, 4); img_info := ∅ |}
    "scan.pcx" 128 = "Unknown".
Proof.
  apply (compression_label_without_tag silent_world
           {| img_format := Some "PCX"; img_mode := "P"; img_size := (4, 4);
              img_info := ∅ |} "scan.pcx" 128).
  - reflexivity.
  - by apply (bool_decide_unpack _).
Defined.

(** ** The size in megabytes against the exact quotient *)

Lemma float_1024_finite : float_1024 = S754_finite false 4503599627370496 (-42).
Proof. reflexivity. Qed.

(** A normal float below [2^k] has an exponent of at most [k - 53]. *)
Lemma F2R_exponent (m : positive) (e k : Z) :
  0 <= k -> 2 ^ 52 <= Zpos m -> (F2R m e < IZR (2 ^ k))%R -> e <= k - 53.
Proof.
  intros Hk Hm Hlt.
  destruct (Z_le_gt_dec e (k - 53)) as [| Hbig]; [assumption | exfalso].
  assert (Hsplit : powerRZ 2 e = (powerRZ 2 (k - 52) * IZR (2 ^ (e - (k - 52))))%R).
  { rewrite IZR_pow2 by lia. rewrite <- powerRZ_2_add. f_equal. lia. }
  assert (Hone : (1 <= IZR (2 ^ (e - (k - 52))))%R).
  { apply IZR_le. pose proof (Z.pow_pos_nonneg 2 (e - (k - 52)) ltac:(lia) ltac:(lia)).
    lia. }
  assert (Hk52 : IZR (2 ^ k) = (4503599627370496 * powerRZ 2 (k - 52))%R).
  { rewrite IZR_pow2 by lia. replace k with (52 + (k - 52)) at 1 by lia.
    rewrite powerRZ_2_add. rewrite <- (IZR_pow2 52) by lia. reflexivity. }
  pose proof (F2R_lower m e Hm) as Hlow. pose proof (powerRZ_2_pos (k - 52)) as Hpos.
  rewrite Hk52 in Hlt. rewrite Hsplit in Hlow. nra.
Qed.

(** Divided by [1024.0]: a normal float within half a unit in the last
    place of the exact quotient. *)
Lemma SFdiv_1024_accuracy (sx : bool) (mf : positive) (ef : Z) :
  2 ^ 52 <= Zpos mf < 2 ^ 53 -> -117 <= ef <= 11 ->
  exists (mp : positive) (ep : Z),
    SFdiv prec emax (S754_finite sx mf ef) float_1024 = S754_finite sx mp ep
    /\ 2 ^ 52 <= Zpos mp < 2 ^ 53
    /\ ef - 10 <= ep <= ef - 9
    /\ (Rabs (F2R mp ep - F2R mf ef / 1024) <= powerRZ 2 ep / 2)%R.
Proof.
  intros Hmf Hef. rewrite float_1024_finite. unfold SFdiv, SFdiv_core_binary.
  cbv zeta.
  rewrite (Zdigits2_eq (Zpos mf) 53) by lia.
  change (Zdigits2 4503599627370496) with 53.
  rewrite fexp_normal by lia.
  replace (Z.min (53 + ef - (53 + -42) - 53) (ef - -42)) with (ef - 11) by lia.
  replace (ef - -42 - (ef - 11)) with 53 by lia.
  cbv iota. rewrite Z.shiftl_mul_pow2 by lia.
  pose proof (Z_div_mod (Zpos mf * 2 ^ 53) 4503599627370496 ltac:(lia)) as Hdm.
  destruct (Z.div_eucl (Zpos mf * 2 ^ 53) 4503599627370496) as [q r].
  destruct Hdm as [Hmq Hr].
  change (2 ^ 53) with 9007199254740992 in Hmq.
  change (2 ^ 52) with 4503599627370496 in Hmf.
  change (2 ^ 53) with 9007199254740992 in Hmf.
  assert (Hq : q = 2 * Zpos mf) by lia.
  assert (Hdq : Zdigits2 q = 54).
  { apply Zdigits2_eq; [lia |].
    change (2 ^ (54 - 1)) with 9007199254740992.
    change (2 ^ 54) with 18014398509481984. lia. }
  destruct (binary_round_aux_normal (xorb sx false) q (ef - 11)
              (new_location 4503599627370496 r)
              (q * 4503599627370496 + r) 4503599627370496)
    as (mp & ep & Hround & Hmp & Hep & Hee & Hbound).
  { lia. }
  { by apply new_location_located. }
  { change (2 ^ 52) with 4503599627370496. lia. }
  { lia. }
  { lia. }
  rewrite xorb_false_r in Hround |- *. exists mp, ep.
  split; [exact Hround |]. split; [exact Hmp |]. split; [lia |].
  pose proof (scaled_bound_to_R mp ep (11 - ef) (q * 4503599627370496 + r)
                4503599627370496 ltac:(lia) ltac:(lia) ltac:(lia)) as HR.
  replace (ep + (11 - ef)) with (ep - (ef - 11)) in HR by lia.
  specialize (HR Hbound).
  replace (IZR (q * 4503599627370496 + r)
           / (powerRZ 2 (11 - ef) * IZR 4503599627370496))%R
    with (F2R mf ef / 1024)%R in HR; [exact HR |].
  replace (q * 4503599627370496 + r) with (Zpos mf * 9007199254740992) by lia.
  unfold F2R. rewrite mult_IZR.
  replace (11 - ef) with (11 + - ef) by lia. rewrite powerRZ_2_add.
  pose proof (powerRZ_2_pos ef). pose proof (powerRZ_2_pos (- ef)).
  assert (Hinv : (powerRZ 2 ef * powerRZ 2 (- ef) = 1)%R).
  { rewrite <- powerRZ_2_add. replace (ef + - ef) with 0 by lia. reflexivity. }
  change (powerRZ 2 11) with (2 ^ 11)%R.
  apply (Rmult_eq_reg_r (powerRZ 2 (- ef))); [| lra].
  replace (IZR (Zpos mf) * powerRZ 2 ef / 1024 * powerRZ 2 (- ef))%R
    with (IZR (Zpos mf) * (powerRZ 2 ef * powerRZ 2 (- ef)) / 1024)%R by (field; lra).
  rewrite Hinv. field. lra.
Qed.

(** The digits printed with two decimals are the nearest hundredths. *)
Lemma scaled_accuracy_hundredths (mp : positive) (ep : Z) :
  ep < 0 ->
  (Rabs (IZR (scaled 2 mp ep) - 100 * F2R mp ep) <= 1 / 2)%R.
Proof.
  intros Hep. pose proof (scaled_nearest 2 mp ep Hep) as Hn.
  change (10 ^ Z.of_nat 2) with 100 in Hn.
  assert (H2 : 0 < 2 ^ (- ep)) by (apply Z.pow_pos_nonneg; lia).
  apply IZR_le in Hn.
  rewrite mult_IZR, abs_IZR, minus_IZR, !mult_IZR, IZR_pow2 in Hn by lia.
  unfold F2R. pose proof (powerRZ_2_pos ep) as Hp. pose proof (powerRZ_2_pos (- ep)) as Hq.
  assert (Hinv : (powerRZ 2 ep * powerRZ 2 (- ep) = 1)%R).
  { rewrite <- powerRZ_2_add. replace (ep + - ep) with 0 by lia. reflexivity. }
  replace (IZR (scaled 2 mp ep) - 100 * (IZR (Zpos mp) * powerRZ 2 ep))%R
    with ((IZR (scaled 2 mp ep) * powerRZ 2 (- ep) - IZR (Zpos mp) * 100) * powerRZ 2 ep)%R.
  2:{ replace (IZR (scaled 2 mp ep))
        with (IZR (scaled 2 mp ep) * (powerRZ 2 ep * powerRZ 2 (- ep)))%R at 2
        by (rewrite Hinv; ring).
      ring. }
  rewrite Rabs_mult, (Rabs_right (powerRZ 2 ep)) by lra.
  apply (Rmult_le_reg_r (powerRZ 2 (- ep))); [assumption |].
  rewrite Rmult_assoc, Hinv, Rmult_1_r. lra.
Qed.

(** The two divisions and the decimal digits together. *)
Lemma megabyte_roundings (x q p uq up t : R) :
  (0 < x)%R ->
  (Rabs (q - x) <= uq / 2)%R -> (4503599627370496 * uq <= q)%R ->
  (Rabs (p - q / 1024) <= up / 2)%R -> (4503599627370496 * up <= p)%R ->
  (Rabs (t - 100 * p) <= 1 / 2)%R ->
  (Rabs (t / 100 - x / 1024) <= 1 / 200 + x / 1024 / 10 ^ 15)%R.
Proof.
  intros Hx Hq Hmq Hp Hmp Ht.
  apply Rabs_le_bounds in Hq, Hp, Ht. apply Rabs_le. lra.
Qed.

(** The size a record shows, in megabytes with two decimals, differs from
    the exact [A / 2^20] by at most half a unit of the last printed digit
    plus the error of the two float divisions, a [10^-15]-th of the size. *)
Theorem file_size_mb_accuracy
    (w : World) (file_path : string) (img : PILImage) (actual_file_size : Z) :
  Image_open w file_path = Ok img ->
  os_stat_st_size w file_path = Ok actual_file_size ->
  0 <= actual_file_size < 2 ^ 63 ->
  exists hundredths : Z,
    0 <= hundredths
    /\ get_image_info w file_path !! "file_size_mb"
       = Some (VStr (decimal_text 2 hundredths))
    /\ (Rabs (IZR hundredths / 100 - IZR actual_file_size / 1048576)
        <= 1 / 200 + IZR actual_file_size / 1048576 / 10 ^ 15)%R.
Proof.
  intros Hopen Hstat HA.
  rewrite (get_image_info_opened w file_path img actual_file_size Hopen Hstat HA).
  change (info_record w file_path img actual_file_size (megabytes actual_file_size)
            !! "file_size_mb")
    with (Some (VStr (format_f 2 (megabytes actual_file_size)))).
  set (A := actual_file_size) in *. unfold megabytes.
  destruct A as [| pa | pa] eqn:HAeq; [| | lia].
  - exists 0. split; [lia |]. split; [reflexivity |].
    replace (IZR 0 / 100 - IZR 0 / 1048576)%R with 0%R by field.
    rewrite Rabs_R0. lra.
  - assert (H63 : 2 ^ 63 < 2 ^ 64) by (apply Z.pow_lt_mono_r; lia).
    destruct (SFdiv_accuracy false pa 1024 ltac:(lia) ltac:(lia))
      as (mf & ef & Hdiv & Hmf & Hef & _ & Hq).
    assert (HAR : (0 < IZR (Zpos pa) < 9223372036854775808)%R).
    { split; [apply IZR_lt; lia |].
      change 9223372036854775808%R with (IZR (2 ^ 63)). apply IZR_lt. lia. }
    pose proof (F2R_lower mf ef ltac:(lia)) as Hlow.
    assert (Hef1 : ef <= 1).
    { apply (F2R_exponent mf ef 54); [lia | lia |].
      change (IZR (2 ^ 54)) with 18014398509481984%R.
      apply Rabs_le_bounds in Hq. lra. }
    destruct (SFdiv_1024_accuracy false mf ef Hmf ltac:(lia))
      as (mp & ep & Hdiv2 & Hmp & Hep & Hp).
    simpl exact at 1. rewrite Hdiv, Hdiv2.
    exists (scaled 2 mp ep). split; [apply scaled_nonneg |]. split; [reflexivity |].
    pose proof (scaled_accuracy_hundredths mp ep ltac:(lia)) as Ht.
    replace (IZR (Zpos pa) / 1048576)%R with (IZR (Zpos pa) / 1024 / 1024)%R by field.
    apply (megabyte_roundings (IZR (Zpos pa) / 1024) (F2R mf ef) (F2R mp ep)
             (powerRZ 2 ef) (powerRZ 2 ep) (IZR (scaled 2 mp ep))).
    + lra.
    + exact Hq.
    + exact Hlow.
    + exact Hp.
    + apply F2R_lower. lia.
    + exact Ht.
Qed.

Lemma file_size_mb_accuracy_witness :
  exists hundredths : Z,
    0 <= hundredths
    /\ get_image_info photo_world "holiday.jpg" !! "file_size_mb"
       = Some (VStr (decimal_text 2 hundredths))
    /\ (Rabs (IZR hundredths / 100 - IZR 5000 / 1048576)
        <= 1 / 200 + IZR 5000 / 1048576 / 10 ^ 15)%R.
Proof.
  apply (file_size_mb_accuracy photo_world "holiday.jpg" img_photo 5000).
  - reflexivity.
  - reflexivity.
  - split; [discriminate | reflexivity].
Defined.

(** ** The results page *)

Lemma for_each_Forall2 {A B : Type} (f : A -> result B) (l : list A) (ys : list B) :
  for_each f l = Ok ys <-> Forall2 (fun x y => f x = Ok y) l ys.
Proof.
  revert ys. induction l as [| x l IH]; intros ys; cbn [for_each].
  - split; [intros [= <-]; constructor | intros Hall; by inversion Hall].
  - cbn [mbind result_bind Py.bind]. split.
    + destruct (f x) as [y | e] eqn:Hx; [| discriminate].
      cbn [mbind result_bind Py.bind].
      destruct (for_each f l) as [ys' | e]; [| discriminate].
      intros [= <-]. constructor; [done | by apply IH].
    + intros Hall. inversion Hall as [| ? y ? ys' Hx Hrest]; subst.
      rewrite Hx. cbn [Py.bind]. apply IH in Hrest. by rewrite Hrest.
Qed.

Lemma for_each_total {A B : Type} (f : A -> result B) (l : list A) :
  Forall (fun x => exists y, f x = Ok y) l -> exists ys, for_each f l = Ok ys.
Proof.
  induction 1 as [| x l [y Hx] _ [ys IH]]; [by exists [] |].
  exists (y :: ys). cbn [for_each mbind result_bind Py.bind].
  rewrite Hx. cbn [Py.bind]. by rewrite IH.
Qed.

Lemma select_sublist {A : Type} (test : A -> result bool) (l xs : list A) :
  select test l = Ok xs -> sublist xs l /\ Forall (fun x => test x = Ok true) xs.
Proof.
  revert xs. induction l as [| x l IH]; intros xs; cbn [select].
  - intros [= <-]. split; constructor.
  - cbn [mbind result_bind Py.bind].
    destruct (test x) as [keep | e] eqn:Hx; [| discriminate].
    cbn [Py.bind].
    destruct (select test l) as [xs' | e]; [| discriminate].
    destruct (IH xs' eq_refl) as [Hsub Hall].
    intros [= <-]. destruct keep.
    + split; [by constructor | by constructor].
    + split; [by constructor | done].
Qed.

Lemma select_total {A : Type} (test : A -> result bool) (l : list A) :
  Forall (fun x => exists keep, test x = Ok keep) l -> exists xs, select test l = Ok xs.
Proof.
  induction 1 as [| x l [keep Hx] _ [xs IH]]; [by exists [] |].
  cbn [select mbind result_bind Py.bind]. rewrite Hx. cbn [Py.bind].
  rewrite IH. by eexists.
Qed.

Lemma Forall2_sublist_l {A B : Type} (R : A -> B -> Prop)
    (l l' : list A) (ys : list B) :
  Forall2 R l ys -> sublist l' l ->
  exists ys', Forall2 R l' ys' /\ sublist ys' ys.
Proof.
  intros Hall. revert l'. induction Hall as [| x y l ys Hxy Hall IH]; intros l' Hsub.
  - inversion Hsub; subst. exists []. split; constructor.
  - inversion Hsub as [| ? l1 ? Hsub' | ? ? ? Hsub']; subst.
    + destruct (IH l1 Hsub') as (ys' & Hall' & Hsub'').
      exists (y :: ys'). split; by constructor.
    + destruct (IH l' Hsub') as (ys' & Hall' & Hsub'').
      exists ys'. split; [done | by constructor].
Qed.

Lemma Forall2_functional {A B : Type} (f : A -> result B) (l : list A) (ys ys' : list B) :
  Forall2 (fun x y => f x = Ok y) l ys ->
  Forall2 (fun x y => f x = Ok y) l ys' -> ys = ys'.
Proof.
  intros H1 H2. apply for_each_Forall2 in H1, H2. congruence.
Qed.

Lemma for_each_map {A B C : Type} (f : B -> result C) (g : A -> B) (l : list A) :
  for_each f (List.map g l) = for_each (fun x => f (g x)) l.
Proof.
  induction l as [| x l IH]; [reflexivity |].
  cbn [List.map for_each]. by rewrite IH.
Qed.

Lemma Forall_map_all {A B : Type} (P : B -> Prop) (g : A -> B) (l : list A) :
  (forall x, P (g x)) -> Forall P (List.map g l).
Proof. intros Hall. induction l; constructor; auto. Qed.

Lemma filter_length_cons {A : Type} (test : A -> bool) (x : A) (l : list A) :
  List.length (List.filter test (x :: l))
  = ((if test x then 1 else 0) + List.length (List.filter test l))%nat.
Proof. cbn [List.filter]. by destruct (test x). Qed.

Lemma table_rows {A : Type} (rows : list A) :
  default [] (match rows with [] => None | _ => Some rows end) = rows.
Proof. by destruct rows. Qed.

Section DisplayFacts.

Variable py : Runtime.

Lemma display_row_inv (file_info row : gmap string value) :
  display_row py file_info = Ok row ->
  row !! "Файл" = file_info !! "filename"
  /\ row !! "Размер (пиксели)" = file_info !! "size_str"
  /\ row !! "Разрешение (DPI)" = file_info !! "dpi"
  /\ row !! "Глубина цвета" = file_info !! "color_depth"
  /\ row !! "Сжатие" = file_info !! "compression"
  /\ row !! "Формат" = file_info !! "format"
  /\ row !! "Размер файла (MB)" = file_info !! "file_size_mb"
  /\ row !! "Статус"
     = Some (VStr (if has_error py file_info then "Ошибка" else "OK")).
Proof.
  unfold display_row, getitem.
  destruct (file_info !! "filename") as [v1 |]; [| discriminate].
  destruct (file_info !! "size_str") as [v2 |]; [| discriminate].
  destruct (file_info !! "dpi") as [v3 |]; [| discriminate].
  destruct (file_info !! "color_depth") as [v4 |]; [| discriminate].
  destruct (file_info !! "compression") as [v5 |]; [| discriminate].
  destruct (file_info !! "format") as [v6 |]; [| discriminate].
  destruct (file_info !! "file_size_mb") as [v7 |]; [| discriminate].
  cbn [mbind result_bind Py.bind]. intros [= <-].
  repeat split; reflexivity.
Qed.

Lemma display_row_record (w : World) (file_path : string) :
  exists row, display_row py (get_image_info w file_path) = Ok row.
Proof.
  destruct (get_image_info_cases w file_path)
    as [(img & A & mb & _ & _ & _ & ->) | (e & ->)]; by eexists.
Qed.

Lemma matches_record (w : World) (search_term file_path : string) :
  exists keep, matches py search_term (get_image_info w file_path) = Ok keep.
Proof.
  destruct (get_image_info_cases w file_path)
    as [(img & A & mb & _ & _ & _ & ->) | (e & ->)]; by eexists.
Qed.

End DisplayFacts.

Section ResultsPageFacts.

Variable py : Runtime.

(** On the records of a scan the results page never raises, whatever the
    search term; with the search field empty the table has one row per
    scanned path, in the order of the paths, each row showing the file
    name of its path and the fields of its record. *)
Theorem display_data_one_row_per_path
    (w : World) (image_files : list string) (search_term : string) :
  image_files <> [] ->
  (exists table, display_data py search_term (process_files w image_files) = Ok table)
  /\ exists rows,
       display_data py "" (process_files w image_files) = Ok (Some rows)
       /\ List.length rows = List.length image_files
       /\ forall (i : nat) (file_path : string),
            image_files !! i = Some file_path ->
            exists row,
              rows !! i = Some row
              /\ row !! "Файл" = Some (VStr (posixpath.basename file_path))
              /\ row !! "Формат" = get_image_info w file_path !! "format"
              /\ row !! "Сжатие" = get_image_info w file_path !! "compression"
              /\ row !! "Размер файла (MB)"
                 = get_image_info w file_path !! "file_size_mb".
Proof.
  intros Hfiles. rewrite process_files_map.
  assert (Hrows : forall l : list string,
             exists rows, for_each (display_row py) (List.map (get_image_info w) l)
                          = Ok rows).
  { intros l. apply for_each_total, Forall_map_all. intros p.
    apply display_row_record. }
  split.
  - unfold display_data, filtered_data.
    destruct (negb (String.eqb search_term "")).
    + destruct (select_total (matches py search_term)
                  (List.map (get_image_info w) image_files)) as [shown Hshown].
      { apply Forall_map_all. intros p. apply matches_record. }
      rewrite Hshown. cbn [mbind result_bind Py.bind].
      destruct (Hrows image_files) as [rows Hall].
      apply for_each_Forall2 in Hall.
      destruct (Forall2_sublist_l _ _ shown _ Hall) as (rows' & Hall' & _).
      { by apply (select_sublist _ _ _ Hshown). }
      apply for_each_Forall2 in Hall'. rewrite Hall'. by eexists.
    + cbn [mbind result_bind Py.bind].
      destruct (Hrows image_files) as [rows ->]. by eexists.
  - destruct (Hrows image_files) as [rows Hall]. exists rows.
    unfold display_data, filtered_data. cbn [String.eqb negb mbind result_bind Py.bind].
    rewrite Hall. cbn [Py.bind].
    rewrite for_each_map in Hall. apply for_each_Forall2 in Hall.
    pose proof (Forall2_length _ _ _ Hall) as Hlen.
    split; [| split; [done |]].
    + destruct rows; [| done]. destruct image_files; [done | discriminate].
    + intros i file_path Hi.
      destruct (Forall2_lookup_l _ _ _ i file_path Hall Hi)
        as (row & Hrow & Hdisplay).
      exists row. split; [done |].
      destruct (display_row_inv py _ _ Hdisplay)
        as (Hname & _ & _ & _ & Hcompression & Hformat & Hsize & _).
      rewrite Hname, Hcompression, Hformat, Hsize. repeat split.
      destruct (get_image_info_cases w file_path)
        as [(img & A & mb & _ & _ & _ & ->) | (e & ->)]; reflexivity.
Qed.

(** A record is flagged as an error exactly when its file failed with a
    non-empty exception text; a file whose opening fails with an empty
    text gets the failure record and is not flagged. *)
Theorem error_flag_needs_message (w : World) (file_path : string) :
  (has_error py (get_image_info w file_path) = true
   <-> exists e : string,
         e <> "" /\ get_image_info w file_path = error_record file_path e)
  /\ (Image_open w file_path = Raise "" ->
      has_error py (get_image_info w file_path) = false
      /\ get_image_info w file_path !! "format" = Some (VStr "Error")).
Proof.
  split; [split |].
  - intros Hflag.
    destruct (get_image_info_cases w file_path)
      as [(img & A & mb & _ & _ & _ & Hrecord) | (e & Hrecord)];
      rewrite Hrecord in Hflag |- *; [discriminate |].
    exists e. split; [| done]. by intros ->.
  - intros (e & He & ->). destruct e; [done | reflexivity].
  - intros Hopen. by rewrite (get_image_info_open_raises w file_path "" Hopen).
Qed.

(** The error metric counts the rows whose status is the error one, and
    the success metric the rows whose status is OK: the two are computed
    from the same test. *)
Theorem metrics_count_statuses (data rows : list (gmap string value)) :
  display_data py "" data = Ok (Some rows) ->
  metrics py data
  = (Z.of_nat (List.length rows),
     Z.of_nat (List.length
                 (List.filter (row_status_is "OK") rows)),
     Z.of_nat (List.length
                 (List.filter (row_status_is "Ошибка") rows))).
Proof.
  unfold display_data, filtered_data.
  cbn [String.eqb negb mbind result_bind Py.bind].
  destruct (for_each (display_row py) data) as [rows' | e] eqn:Hall; [| discriminate].
  cbn [Py.bind]. intros Hrows.
  assert (rows' = rows) as ->.
  { destruct rows' as [| row rows']; [discriminate | by injection Hrows]. }
  clear Hrows.
  apply for_each_Forall2 in Hall. unfold metrics.
  enough (Hcount :
            List.length data = List.length rows
            /\ List.length (List.filter (fun f => negb (has_error py f)) data)
               = List.length
                   (List.filter (row_status_is "OK") rows)
            /\ List.length rows
               = (List.length
                    (List.filter (row_status_is "OK") rows)
                  + List.length
                      (List.filter (row_status_is "Ошибка") rows))%nat).
  { destruct Hcount as (-> & -> & Hsum). f_equal. lia. }
  induction Hall as [| f row data rows Hrow _ (IH1 & IH2 & IH3)]; [done |].
  destruct (display_row_inv py _ _ Hrow) as (_ & _ & _ & _ & _ & _ & _ & Hstatus).
  assert (Hok : row_status_is "OK" row = negb (has_error py f)).
  { unfold row_status_is. rewrite Hstatus. by destruct (has_error py f). }
  assert (Herr : row_status_is "Ошибка" row = has_error py f).
  { unfold row_status_is. rewrite Hstatus. by destruct (has_error py f). }
  rewrite !filter_length_cons, Hok, Herr. cbn [List.length].
  destruct (has_error py f); cbn [negb]; lia.
Qed.

(** A search narrows the table: its rows are rows of the unfiltered
    table, in the same order, and every file name shown contains the
    lower-cased search term. *)
Theorem search_rows_sublist
    (search_term : string) (data : list (gmap string value))
    (table found : option (list (gmap string value))) :
  search_term <> "" ->
  display_data py "" data = Ok table ->
  display_data py search_term data = Ok found ->
  sublist (default [] found) (default [] table)
  /\ forall (row : gmap string value) (name : string),
       row ∈ default [] found ->
       row !! "Файл" = Some (VStr name) ->
       str_contains (str_lower py search_term) (str_lower py name) = true.
Proof.
  intros Hterm. unfold display_data at 1. unfold filtered_data.
  cbn [String.eqb negb mbind result_bind Py.bind].
  destruct (for_each (display_row py) data) as [rows | e] eqn:Hall; [| discriminate].
  cbn [Py.bind]. intros [= <-]. rewrite table_rows.
  unfold display_data, filtered_data.
  destruct (String.eqb_spec search_term "") as [| _]; [done |]. cbn [negb].
  destruct (select (matches py search_term) data) as [shown | e] eqn:Hshown;
    [| discriminate].
  cbn [mbind result_bind Py.bind].
  destruct (for_each (display_row py) shown) as [rows' | e] eqn:Hall'; [| discriminate].
  cbn [Py.bind]. intros [= <-]. rewrite table_rows.
  apply for_each_Forall2 in Hall, Hall'.
  destruct (select_sublist _ _ _ Hshown) as [Hsub Hmatch].
  split.
  - destruct (Forall2_sublist_l _ _ shown _ Hall Hsub) as (rows'' & Hall'' & Hsub'').
    by rewrite (Forall2_functional _ _ _ _ Hall' Hall'').
  - intros row name Hin Hname.
    apply list_elem_of_lookup in Hin as [i Hi].
    destruct (Forall2_lookup_r _ _ _ i row Hall' Hi) as (f & Hf & Hrow).
    apply (proj1 (Forall_lookup _ _) Hmatch i f) in Hf.
    destruct (display_row_inv py _ _ Hrow) as (Hfile & _).
    rewrite Hname in Hfile. unfold matches, getitem in Hf. rewrite <- Hfile in Hf.
    cbn [mbind result_bind Py.bind lower_contains] in Hf. congruence.
Qed.

End ResultsPageFacts.

Lemma display_data_one_row_per_path_witness :
  mixed_paths <> []
  /\ exists table,
       display_data ascii_runtime "A" (process_files mixed_world mixed_paths) = Ok table.
Proof.
  assert (Hfiles : mixed_paths <> []) by discriminate.
  split; [exact Hfiles |].
  apply (proj1 (display_data_one_row_per_path ascii_runtime mixed_world mixed_paths "A"
                  Hfiles)).
Defined.

Lemma metrics_count_statuses_witness :
  display_data ascii_runtime "" [error_record "pics/bad.jpg" "truncated file"]
  = Ok (Some [failure_row "bad.jpg"])
  /\ metrics ascii_runtime [error_record "pics/bad.jpg" "truncated file"] = (1, 0, 1).
Proof.
  assert (Hrows : display_data ascii_runtime ""
                    [error_record "pics/bad.jpg" "truncated file"]
                  = Ok (Some [failure_row "bad.jpg"])) by reflexivity.
  split; [exact Hrows |].
  apply (metrics_count_statuses ascii_runtime _ _ Hrows).
Defined.

Lemma search_rows_sublist_witness :
  sublist [failure_row "Bad.JPG"] [failure_row "Bad.JPG"; failure_row "c.png"]
  /\ forall (row : gmap string value) (name : string),
       row ∈ [failure_row "Bad.JPG"] ->
       row !! "Файл" = Some (VStr name) ->
       str_contains (Py.lower "BAD") (Py.lower name) = true.
Proof.
  apply (search_rows_sublist ascii_runtime "BAD"
           [error_record "pics/Bad.JPG" "truncated file";
            error_record "pics/c.png" "truncated file"]
           (Some [failure_row "Bad.JPG"; failure_row "c.png"])
           (Some [failure_row "Bad.JPG"])).
  - discriminate.
  - reflexivity.
  - reflexivity.
Defined.

(** ** The scan button *)

(** What a press of the scan button does to the session: nothing for an
    empty or non-existent path; for an existing folder without images the
    path is stored while the records of the previous scan stay, and the
    same page is shown; otherwise the records are replaced by one record
    per scanned path. *)
Theorem scan_button_cases
    (os_path_exists : string -> bool) (w : World) (folder : string) (st : SessionState) :
  (folder = "" \/ os_path_exists folder = false ->
   scan_button os_path_exists w folder st = st)
  /\ (folder <> "" -> os_path_exists folder = true ->
      scan_folder w folder = [] ->
      scan_button os_path_exists w folder st
      = {| processed_files := processed_files st; folder_path := folder |}
      /\ page (scan_button os_path_exists w folder st) = page st)
  /\ (folder <> "" -> os_path_exists folder = true ->
      scan_folder w folder <> [] ->
      scan_button os_path_exists w folder st
      = {| processed_files := List.map (get_image_info w) (scan_folder w folder);
           folder_path := folder |}
      /\ page (scan_button os_path_exists w folder st) = ResultsPage).
Proof.
  unfold scan_button. split; [| split].
  - intros [-> | ->]; [reflexivity |]. by rewrite andb_false_r.
  - intros Hfolder -> Hscan.
    destruct (String.eqb_spec folder "") as [| _]; [done |]. cbn [negb andb].
    unfold scan_and_process_folder. rewrite Hscan. by split.
  - intros Hfolder -> Hscan.
    destruct (String.eqb_spec folder "") as [| _]; [done |]. cbn [negb andb].
    unfold scan_and_process_folder.
    destruct (scan_folder w folder) as [| p rest] eqn:Hfiles; [done |].
    rewrite process_files_map. by split.
Qed.
